(** * Market metrics: a shallow embedding of [stock_market/metrics.py]

    The development follows the Python module top-down: the numeric values
    held by pandas objects, the business-day calendar, the errors the code
    can raise, the replay of the S&P 500 change log
    ([USStockMarketMetrics.get_sp500_historical_components]), the constructor
    [Metrics.__init__] with its reconciliation of delisted tickers and its
    shares-outstanding resolution, and the query methods.

    Conventions.
    - A pandas float is modelled by [fl]: an exact rational, the two
      infinities or NaN.  The sums and products of the aggregates are exact
      (no rounding) and the results are kept in lowest terms, so that equal
      values are equal terms.  Where the code casts a float back to an
      integer, in the share-class correction, the rounding decides the
      result and the operations are those of binary64 ([round64]).
    - A timestamp is the proleptic ordinal of its day ([date.toordinal ()]),
      a [Z]; ordinal 1 is a Monday.
    - A column of a DataFrame is a function from row label to value together
      with the frame's index, the ordered list of its row labels.
    - A Python exception is an [Err] result; [Metrics.__init__] raising means
      that no object is built. *)

From Stdlib Require Import ZArith QArith Qreduction Qround Qpower Qabs.
From Stdlib Require Import Lia Lqa String List.
From stdpp Require Import gmap strings list sorting.

Local Open Scope Z_scope.

(** ** Exceptions *)

Inductive error : Type :=
| ValueError (msg : string)
| KeyError (key : string)
| AttributeError (name : string)
| TypeError
| IndexError
| ZeroDivisionError
| OverflowError
| RemoteDataError (msg : string).

Inductive result (A : Type) : Type :=
| Ok (a : A)
| Err (e : error).
Arguments Ok {A} a.
Arguments Err {A} e.

Definition rbind {A B} (k : A → result B) (r : result A) : result B :=
  match r with
  | Ok a => k a
  | Err e => Err e
  end.

#[global] Instance result_bind : MBind result := @rbind.
#[global] Instance result_ret : MRet result := @Ok.

Definition is_raised {A} (r : result A) : Prop := ∃ e, r = Err e.

(** A loop whose body may raise: the first exception ends it. *)
Fixpoint for_each {A S} (body : S → A → result S) (l : list A) (s : S) : result S :=
  match l with
  | [] => Ok s
  | a :: l' => s' ← body s a; for_each body l' s'
  end.

(** ** Floating-point values *)

Inductive fl : Type :=
| Fin (q : Q)
| PInf
| NInf
| NaN.

Definition isna (x : fl) : bool :=
  match x with NaN => true | _ => false end.

Definition notna (x : fl) : bool := negb (isna x).

Definition Qsgn (q : Q) : Z := Z.sgn (Qnum q).

Definition inf_of_sign (s : Z) : fl :=
  if s =? 0 then NaN else if 0 <? s then PInf else NInf.

Definition fsign (x : fl) : Z :=
  match x with
  | Fin q => Qsgn q
  | PInf => 1
  | NInf => -1
  | NaN => 0
  end.

Definition fadd (x y : fl) : fl :=
  match x, y with
  | NaN, _ | _, NaN => NaN
  | Fin a, Fin b => Fin (Qred (a + b))
  | PInf, NInf | NInf, PInf => NaN
  | PInf, _ | _, PInf => PInf
  | NInf, _ | _, NInf => NInf
  end.

Definition fmul (x y : fl) : fl :=
  match x, y with
  | NaN, _ | _, NaN => NaN
  | Fin a, Fin b => Fin (Qred (a * b))
  | _, _ => inf_of_sign (fsign x * fsign y)
  end.

Definition fdiv (x y : fl) : fl :=
  match x, y with
  | NaN, _ | _, NaN => NaN
  | Fin a, Fin b =>
      if Qsgn b =? 0 then inf_of_sign (Qsgn a) else Fin (Qred (a / b))
  | Fin _, _ => Fin 0
  | _, Fin b => if Qsgn b =? 0 then x else inf_of_sign (fsign x * Qsgn b)
  | _, _ => NaN
  end.

Definition fl_of_Z (z : Z) : fl := Fin (inject_Z z).
Definition fl_of_nat (n : nat) : fl := fl_of_Z (Z.of_nat n).

Definition fzero : fl := Fin 0.

Definition is_finite (x : fl) : Prop := ∃ q, x = Fin q.

Definition Qlt_bool (a b : Q) : bool :=
  Qnum a * Zpos (Qden b) <? Qnum b * Zpos (Qden a).

(** Truncation towards zero. *)
Definition Qtrunc (q : Q) : Z := Z.quot (Qnum q) (Zpos (Qden q)).

(** ** Binary64 arithmetic

    The floats of Python and numpy are IEEE 754 binary64 numbers: 53
    significant bits, exponents down to the subnormal spacing [2^-1074],
    overflow from [2^1024] on, rounding to nearest with ties to even.  A
    float is an [fl] whose rational is such a number; the sign of a zero
    is not kept, which nothing below observes. *)

Definition pow2 (k : Z) : Q := (2 ^ k)%Q.

(** [floor (log2 q)] for a positive [q]. *)
Definition Qlog2 (q : Q) : Z :=
  let d := Z.log2 (Qnum q) - Z.log2 (Zpos (Qden q)) in
  if Qle_bool (pow2 d) q then d else d - 1.

(** The nearest integer, a tie going to the even one. *)
Definition rne (x : Q) : Z :=
  let f := Qfloor x in
  match (x - inject_Z f ?= 1 # 2)%Q with
  | Lt => f
  | Gt => f + 1
  | Eq => if Z.even f then f else f + 1
  end.

(** The multiple of the spacing at [q] that is nearest to a positive [q],
    before any overflow. *)
Definition round64_pos (q : Q) : Q :=
  let k := Z.max (Qlog2 q - 52) (-1074) in
  (inject_Z (rne (q / pow2 k)) * pow2 k)%Q.

(** The binary64 number nearest to [q]: the result of an operation whose
    exact value is [q]. *)
Definition round64 (q : Q) : fl :=
  let r := match (q ?= 0)%Q with
           | Eq => 0%Q
           | Gt => round64_pos q
           | Lt => (- round64_pos (- q))%Q
           end in
  if Qle_bool (pow2 1024) (Qabs r)
  then (if 0 <? Qnum r then PInf else NInf)
  else Fin (Qred r).

(** [float (z)] and the conversion of an [int] operand of a float
    operation: an [int] too large for a float raises. *)
Definition py_float (z : Z) : result fl :=
  match round64 (inject_Z z) with
  | Fin q => Ok (Fin q)
  | _ => Err OverflowError
  end.

(** [a / b] on two [int]s: the correctly rounded quotient. *)
Definition int_truediv (a b : Z) : result fl :=
  if b =? 0 then Err ZeroDivisionError
  else match round64 (inject_Z a / inject_Z b) with
       | Fin q => Ok (Fin q)
       | _ => Err OverflowError
       end.

(** [x * y] on floats, in Python and in numpy: no exception. *)
Definition f64_mul (x y : fl) : fl :=
  match x, y with
  | Fin a, Fin b => round64 (a * b)
  | _, _ => fmul x y
  end.

(** [x / y] on Python floats: a zero divisor raises. *)
Definition py_truediv (x y : fl) : result fl :=
  match x, y with
  | Fin a, Fin b =>
      if Qeq_bool b 0 then Err ZeroDivisionError else Ok (round64 (a / b))
  | _, _ => Ok (fdiv x y)
  end.

(** [x < z] for a float [x] and an [int] [z]: Python compares the two
    values exactly. *)
Definition fl_lt_int (x : fl) (z : Z) : bool :=
  match x with
  | Fin q => Qlt_bool q (inject_Z z)
  | NInf => true
  | PInf | NaN => false
  end.

(** The cast of a finite float64 to int64 by numpy: truncation towards
    zero; a value outside the range of int64 gives the minimum of the range,
    which is what the conversion instruction of x86-64 returns. *)
Definition int64_of_float (q : Q) : Z :=
  let t := Qtrunc q in
  if (- 2 ^ 63 <=? t) && (t <? 2 ^ 63) then t else - 2 ^ 63.

Definition is_fin (x : fl) : bool :=
  match x with Fin _ => true | _ => false end.

Definition non_finite_msg : string :=
  "Cannot convert non-finite values (NA or inf) to integer".

Definition cast_int64 (x : fl) : Z :=
  match x with
  | Fin q => int64_of_float q
  | _ => - 2 ^ 63
  end.

(** [Series.astype ('int64')] on a float64 series: pandas raises on a NaN
    or an infinity and leaves the cast to numpy otherwise. *)
Definition astype_int64 (s : list (Z * fl)) : result (list (Z * Z)) :=
  if forallb (λ r, is_fin r.2) s
  then Ok (map (prod_map id cast_int64) s)
  else Err (ValueError non_finite_msg).

(** ** Dates and business days *)

Definition date : Type := Z.

(** [date.weekday ()]: Monday is 0 and Sunday is 6. *)
Definition weekday (d : date) : Z := (d + 6) mod 7.

(** [ts + BDay(1)]: the next business day. *)
Definition add_bday (d : date) : date :=
  let wday := weekday d in
  if 4 <? wday then d + (7 - wday)
  else if wday + 1 <=? 4 then d + 1
  else d + 3.

(** [ts - BDay(1)]: the previous business day. *)
Definition sub_bday (d : date) : date :=
  let wday := weekday d in
  if 4 <? wday then d - 7 + ((7 - wday) + 4)
  else if wday + 4 <=? 4 then d - 7 + 4
  else d - 7 + 6.

(** A label slice [st:ed] of a sorted date index: both ends are inclusive
    and [None] leaves the end open. *)
Definition in_window (st ed : option date) (d : date) : bool :=
  match st with Some s => s <=? d | None => true end
  && match ed with Some e => d <=? e | None => true end.

(** ** Python dictionaries

    A [dict] keeps its keys in insertion order; assigning to a key that is
    present replaces the value in place, assigning to a new key appends. *)

Definition pydict (V : Type) : Type := list (string * V).

Fixpoint dict_get {V} (d : pydict V) (k : string) : option V :=
  match d with
  | [] => None
  | (k', v) :: d' => if String.eqb k' k then Some v else dict_get d' k
  end.

Fixpoint dict_set {V} (d : pydict V) (k : string) (v : V) : pydict V :=
  match d with
  | [] => [(k, v)]
  | (k', v') :: d' =>
      if String.eqb k' k then (k', v) :: d' else (k', v') :: dict_set d' k v
  end.

Definition dict_keys {V} (d : pydict V) : list string := d.*1.

(** [d[k]], which raises on a missing key. *)
Definition dict_lookup {V} (d : pydict V) (k : string) : result V :=
  match dict_get d k with
  | Some v => Ok v
  | None => Err (KeyError k)
  end.

Definition dict_contains {V} (d : pydict V) (k : string) : bool :=
  bool_decide (is_Some (dict_get d k)).

(** A membership window [(start, end)]; [None] stands for Python's [None]. *)
Definition window : Type := option date * option date.

(** ** Replay of the index change log *)

Module USStockMarketMetrics.

(** One row of [sp500_changes_since_2019.csv]: its date, the tickers of
    column 0 (none when the cell is null) and those of column 1, each already
    split at the commas. *)
Record change : Type := Change {
  ch_date : date;
  ch_added : list string;
  ch_removed : list string
}.

(** The state of the replay: the dictionary [ret] and the list
    [all_components]. *)
Definition replay_state : Type := pydict window * list string.

(** [_, end = ret[added_ticker]; ret[added_ticker] = (ts, end)] *)
Definition add_ticker (ts : date) (ret : pydict window) (t : string)
  : result (pydict window) :=
  match dict_get ret t with
  | None => Err (KeyError t)
  | Some (_, ed) => Ok (dict_set ret t (Some ts, ed))
  end.

(** [ret[removed_ticker] = (start, ts-BDay(1)); all_components.append(removed_ticker)] *)
Definition remove_ticker (start : option date) (ts : date)
    (s : replay_state) (t : string) : replay_state :=
  (dict_set s.1 t (start, Some (sub_bday ts)), s.2 ++ [t]).

Definition replay_row (start : option date) (s : replay_state) (row : change)
  : result replay_state :=
  ret ← for_each (add_ticker (ch_date row)) (ch_added row) s.1;
  Ok (fold_left (remove_ticker start (ch_date row)) (ch_removed row) (ret, s.2)).

(** The loop over [df[::-1]], given the rows already reversed; comparing a
    timestamp with [None] raises, and a row older than [start] ends the loop. *)
Fixpoint replay (start : option date) (rows : list change) (s : replay_state)
  : result replay_state :=
  match rows with
  | [] => Ok s
  | row :: rows' =>
      match start with
      | None => Err TypeError
      | Some s0 =>
          if ch_date row <? s0 then Ok s
          else s' ← replay_row start s row; replay start rows' s'
      end
  end.

Definition added_twice_msg : string :=
  "Some tickers were added twice during the implied period".

(** [components] is the result of [get_sp500_components ()] and [df] the
    change log in file order. *)
Definition get_sp500_historical_components
    (components : list string) (df : list change) (start : option date)
  : result (pydict window) :=
  let all_components := components in
  let ret := fold_left (λ d t, dict_set d t (start, None)) all_components [] in
  '(ret, all_components) ← replay start (rev df) (ret, all_components);
  if (length ret <? length all_components)%nat
  then Err (ValueError added_twice_msg)
  else Ok ret.

(** The rows the loop gets to process when [start] is [s0]. *)
Fixpoint processed (s0 : date) (rows : list change) : list change :=
  match rows with
  | [] => []
  | row :: rows' => if ch_date row <? s0 then [] else row :: processed s0 rows'
  end.

(** Ticker [t] receives two start assignments with no removal of [t]
    processed between them. *)
Definition two_starts_without_removal (rows : list change) (t : string) : Prop :=
  ∃ l1 r1 l2 r2 l3,
    rows = l1 ++ r1 :: (l2 ++ r2 :: l3) ∧
    t ∈ ch_added r1 ∧ t ∈ ch_added r2 ∧
    (t ∉ ch_removed r1) ∧ (∀ r, r ∈ l2 → t ∉ ch_removed r).

(** The invariant of the replay: the keys of [ret] are, as a set, the
    entries of [all_components]. *)
Definition replay_inv (s : replay_state) : Prop :=
  NoDup (dict_keys s.1) ∧ ∀ k, k ∈ dict_keys s.1 ↔ k ∈ s.2.

(** While no ticker is tracked twice, the keys of [ret] are
    [all_components] in order, which starts with the current members, and
    the windows without an end are those of the current members. *)
Definition windows_inv (comps : list string) (s : replay_state) : Prop :=
  dict_keys s.1 = s.2 ∧ (∃ rem, s.2 = comps ++ rem) ∧
  ∀ k w, dict_get s.1 k = Some w → (w.2 = None ↔ k ∈ comps).

End USStockMarketMetrics.

(** ** Series, frames and the external data sources *)

(** A series with an index of its own, in row order. *)
Definition series : Type := list (date * fl).

Definition series_get (s : series) (d : date) : option fl :=
  snd <$> List.find (λ r, r.1 =? d) s.

(** The two value columns kept for every ticker in [self.data]. *)
Inductive field : Type := Close | Volume.

(** [self.data]: a value for each column [(field, ticker)] and row label;
    the row labels are kept beside it. *)
Definition frame : Type := field → string → date → fl.

(** A row of a historical extract: date, close and volume. *)
Definition hrow : Type := date * (fl * fl).

(** What the constructor asks of the outside world. *)
Record sources : Type := Sources {
  (** row labels and values of [Tickers.download]; NaN where the feed has
      no observation *)
  yf_index : list date;
  yf_download : frame;
  (** [info.get('dividendYield')], [info.get('sharesOutstanding')] and
      [info.get('impliedSharesOutstanding')] *)
  yf_dividendYield : string → option fl;
  yf_sharesOutstanding : string → option Z;
  yf_impliedSharesOutstanding : string → option Z;
  (** [get_shares_full], an int64 series, in the order reported *)
  yf_shares_full : string → list (date * Z);
  (** the adjusted close of [yfin.download (stock_index)] *)
  yf_index_close : string → series;
  (** the cached extract of a ticker when its file exists *)
  cached_history : string → option (list hrow);
  (** the Alpha Vantage call, which may fail *)
  av_daily : string → result (list hrow)
}.

(** ** Filling gaps *)

(** The first value of [col] that is not NaN among [rows]. *)
Fixpoint first_valid (col : date → fl) (rows : list date) : fl :=
  match rows with
  | [] => NaN
  | d :: rows' => if isna (col d) then first_valid col rows' else col d
  end.

(** [DataFrame.bfill] on one column: the row labelled [d] takes the first
    value that is not NaN at or below it. *)
Fixpoint bfill (rows : list date) (col : date → fl) (d : date) : fl :=
  match rows with
  | [] => NaN
  | d' :: rows' => if d' =? d then first_valid col rows else bfill rows' col d
  end.

(** [Series.ffill] and [Series.bfill] on a series with its own index. *)
Fixpoint ffill_from (prev : fl) (s : series) : series :=
  match s with
  | [] => []
  | (d, x) :: s' =>
      let x' := if isna x then prev else x in (d, x') :: ffill_from x' s'
  end.

Definition series_ffill (s : series) : series := ffill_from NaN s.

Fixpoint series_bfill (s : series) : series :=
  match s with
  | [] => []
  | (d, x) :: s' =>
      let r := series_bfill s' in
      (d, if isna x then match r with [] => NaN | (_, y) :: _ => y end else x) :: r
  end.

(** [sort_index]: a stable insertion sort on the dates. *)
Fixpoint insert_row {A} (r : date * A) (s : list (date * A)) : list (date * A) :=
  match s with
  | [] => [r]
  | r' :: s' => if r.1 <? r'.1 then r :: s else r' :: insert_row r s'
  end.

Definition sort_index {A} (s : list (date * A)) : list (date * A) :=
  fold_left (λ acc r, insert_row r acc) s [].

(** The order of [sort_index]. *)
Definition date_le {A} (a b : date * A) : Prop := a.1 ≤ b.1.

(** [groupby(level=0).last()]: one row for each date, in date order, holding
    the value reported last for it. *)
Definition groupby_last (s : list (date * Z)) : list (date * Z) :=
  sort_index
    (omap (λ d, pair d <$> (snd <$> List.find (λ r, r.1 =? d) (rev s)))
          (remove_dups s.*1)).

(** ** The constructor [Metrics.__init__] *)

Module Metrics.

Definition CAPITALIZATION : string := "Capitalization".
Definition TURNOVER : string := "Turnover ratio".
Definition TRADING_DAYS_IN_YEAR : Z := 252.

(** The object built by the constructor.  [capitalization] is a frame whose
    columns are named by strings: the two aggregates and one column for each
    ticker; a column that was never written reads NaN.  [stock_index_data]
    is [None] when the attribute was never assigned and [Some None] when it
    holds Python's [None]. *)
Record t : Type := Build {
  ticker_symbols : pydict window;
  index : list date;
  data : frame;
  dividend_yield : pydict fl;
  shares_outstanding : pydict (date → fl);
  capitalization : string → date → fl;
  forward_dividend_yield : fl;
  stock_index_data : option (option series)
}.

(** [get_current_components]: the keys whose window has no end. *)
Definition current_components (tickers : pydict window) : list string :=
  (List.filter (λ kv, bool_decide (kv.2.2 = None)) tickers).*1.

(** [self.data.bfill(inplace=True)], column by column. *)
Definition bfill_frame (rows : list date) (f : frame) : frame :=
  λ fld tk, bfill rows (f fld tk).

(** [dividend_yield[ticker] = 0. if dividend_yield is None else dividend_yield] *)
Definition record_yield (src : sources) (dy : pydict fl) (tk : string) : pydict fl :=
  dict_set dy tk (match yf_dividendYield src tk with None => Fin 0 | Some y => y end).

(** [subset.columns[subset.isna().all()]]: the columns of closes that hold
    no value at all. *)
Definition delisted_tickers (rows : list date) (f : frame) (tks : list string)
  : list string :=
  List.filter (λ tk, forallb (λ d, isna (f Close tk d)) rows) tks.

(** Writing a block of rows of the two columns of one ticker. *)
Definition set_rows (f : frame) (tk : string) (sel : date → bool)
    (val : field → date → fl) : frame :=
  λ fld tk' d, if String.eqb tk' tk && sel d then val fld d else f fld tk' d.

Definition hrow_value (r : hrow) (fld : field) : fl :=
  match fld with Close => r.2.1 | Volume => r.2.2 end.

Definition history_value (h : list hrow) (fld : field) (d : date) : fl :=
  match List.find (λ r, r.1 =? d) h with
  | Some r => hrow_value r fld
  | None => NaN
  end.

(** The historical extract of a delisted ticker: the cached file when there
    is one, the secondary provider otherwise. *)
Definition load_history (src : sources) (tk : string) : result (list hrow) :=
  match cached_history src tk with
  | Some h => Ok h
  | None => av_daily src tk
  end.

(** [Index.is_monotonic_increasing] with [Z.leb], [is_monotonic_decreasing]
    with [Z.geb]. *)
Fixpoint is_monotonic (le : date → date → bool) (l : list date) : bool :=
  match l with
  | d :: l' =>
      match l' with
      | d' :: _ => le d d' && is_monotonic le l'
      | [] => true
      end
  | [] => true
  end.

(** The position of the first occurrence of [label]. *)
Fixpoint first_position (label : date) (l : list date) : nat :=
  match l with
  | d :: l' => if d =? label then 0%nat else S (first_position label l')
  | [] => 0%nat
  end.

(** What follows a leading block of rows labelled [label]. *)
Fixpoint skip_equal (label : date) (l : list date) : list date :=
  match l with
  | d :: l' => if d =? label then skip_equal label l' else l
  | [] => []
  end.

(** [Index.get_slice_bound (label, 'left')], the position at which the
    label slice [label:] starts.  A label that occurs in the index starts
    the slice at its first occurrence, provided its occurrences form one
    block; a label that does not occur is located by binary search, which
    needs a monotonic index: in an increasing index the slice starts after
    the smaller labels, in a decreasing index after the larger ones.  [None]
    stands for the [KeyError] of the other cases. *)
Definition slice_bound (label : date) (l : list date) : option nat :=
  if bool_decide (label ∈ l) then
    let p := first_position label l in
    if bool_decide (label ∈ skip_equal label (drop p l)) then None else Some p
  else if is_monotonic Z.leb l then
    Some (length (List.filter (λ d, d <? label) l))
  else if is_monotonic Z.geb l then
    Some (length (List.filter (λ d, label <? d) l))
  else None.

(** [f.loc[self.data.index[0]:, ['close', 'volume']]]: the rows of the
    extract from the slice bound on, in the order of the extract (no row
    where the slice raises). *)
Definition slice_from (first : date) (h : list hrow) : list hrow :=
  match slice_bound first h.*1 with
  | Some p => drop p h
  | None => []
  end.

(** The body of the loop over the delisted tickers. *)
Definition reconcile (src : sources) (tickers : pydict window)
    (rows : list date) (f : frame) (tk : string) : result frame :=
  h ← load_history src tk;
  first ← match rows with d :: _ => Ok d | [] => Err IndexError end;
  _ ← match slice_bound first h.*1 with
      | Some p => Ok p
      | None => Err (KeyError "slice bound")
      end;
  let h := slice_from first h in
  if negb (forallb (λ r, bool_decide (r.1 ∈ rows)) h)
  then Err (KeyError "not in index")
  else
    let f := set_rows f tk (λ d, bool_decide (d ∈ h.*1)) (history_value h) in
    lst ← match last h with Some r => Ok r | None => Err IndexError end;
    w ← dict_lookup tickers tk;
    match w.2 with
    | None => Err TypeError
    | Some ed =>
        if lst.1 <? ed
        then Ok (set_rows f tk (in_window (Some (add_bday lst.1)) (Some ed))
                   (λ fld _, match fld with Close => lst.2.1 | Volume => Fin 0 end))
        else Ok f
    end.

(** *** Shares outstanding *)

Definition no_shares_msg (tk : string) : string :=
  "No data on shares outstanding for " +:+ tk.

(** [shares_outstanding * 1.2]: the [int] becomes a float and is
    multiplied by the float nearest to 1.2. *)
Definition times_1_2 (current : Z) : result fl :=
  fc ← py_float current; Ok (f64_mul fc (round64 (12 # 10))).

(** [shares_outstanding / float(shares_outstanding2)] *)
Definition ratio_of (current denom : Z) : result fl :=
  fd ← py_float denom;
  fc ← py_float current;
  py_truediv fc fd.

(** [shares_outst *= ratio] on one value: the int64 becomes a float64 and
    is multiplied. *)
Definition rescale (ratio : fl) (x : Z) : fl :=
  f64_mul (round64 (inject_Z x)) ratio.

(** The correction for issuers with several listed share classes: the
    test [shares_outstanding * 1.2 < shares_outst.iloc[-1].item()], whose
    left side is evaluated first, and the rescaling.  The second component
    of the result tells whether the series was rescaled.  The message
    printed on the way holds [int(latest * current / denom)], a division of
    [int]s that can raise. *)
Definition correct_share_classes (current implied : option Z)
    (so : list (date * Z)) : result (list (date * Z) * bool) :=
  match current with
  | None => Ok (so, false)
  | Some c =>
      x ← times_1_2 c;
      latest ← match last so with Some r => Ok r.2 | None => Err IndexError end;
      if fl_lt_int x latest then
        let denom := match implied with Some i => i | None => latest end in
        _ ← int_truediv (latest * c) denom;
        ratio ← ratio_of c denom;
        so' ← astype_int64 (map (prod_map id (rescale ratio)) so);
        Ok (so', true)
      else Ok (so, false)
  end.

(** The branch that asks the feed. *)
Definition feed_shares (src : sources) (tk : string) : result series :=
  let so := groupby_last (yf_shares_full src tk) in
  r ← correct_share_classes (yf_sharesOutstanding src tk)
        (yf_impliedSharesOutstanding src tk) so;
  Ok (map (prod_map id fl_of_Z) r.1).

(** Where the series of a ticker comes from.  [hist] is the argument
    [hist_shares_outs]. *)
Definition raw_shares (src : sources) (delisted : list string)
    (hist : option (gmap string series)) (tk : string) : result series :=
  if bool_decide (tk ∈ delisted) then
    match hist ≫= (.!! tk) with
    | None => Err (ValueError (no_shares_msg tk))
    | Some s => Ok s
    end
  else
    match hist ≫= (.!! tk) with
    | Some s => Ok s
    | None => feed_shares src tk
    end.

(** Rolling the reported values over the rows of [self.data]. *)
Definition fill_shares (rows : list date) (s : series) : date → fl :=
  let missing_dates := List.filter (λ d, bool_decide (d ∉ s.*1)) rows in
  let s := sort_index (s ++ map (λ d, (d, NaN)) missing_dates) in
  let s := series_bfill (series_ffill s) in
  λ d, default NaN (series_get s d).

(** The body of the loop that fills [self.shares_outstanding]. *)
Definition resolve_shares (src : sources) (rows : list date)
    (delisted : list string) (hist : option (gmap string series))
    (so : pydict (date → fl)) (tk : string) : result (pydict (date → fl)) :=
  s ← raw_shares src delisted hist tk;
  Ok (dict_set so tk (fill_shares rows s)).

(** *** Aggregation *)

(** [frame.loc[st:ed, col] += v] and [frame.loc[st:ed, col] = v] *)
Definition add_in_window (c : string → date → fl) (col : string) (w : window)
    (v : date → fl) : string → date → fl :=
  λ col' d,
    if String.eqb col' col && in_window w.1 w.2 d then fadd (c col' d) (v d)
    else c col' d.

Definition set_in_window (c : string → date → fl) (col : string) (w : window)
    (v : date → fl) : string → date → fl :=
  λ col' d,
    if String.eqb col' col && in_window w.1 w.2 d then v d else c col' d.

(** [pd.DataFrame(0., index=..., columns=[CAPITALIZATION, TURNOVER])] *)
Definition empty_capitalization : string → date → fl :=
  λ col _,
    if String.eqb col CAPITALIZATION || String.eqb col TURNOVER then Fin 0 else NaN.

(** The body of the last loop of the constructor; the state is the frame
    [self.capitalization] and the running [self.forward_dividend_yield]. *)
Definition aggregate (tickers : pydict window) (rows : list date) (f : frame)
    (dy : pydict fl) (so : pydict (date → fl))
    (s : (string → date → fl) * fl) (tk : string)
  : result ((string → date → fl) * fl) :=
  w ← dict_lookup tickers tk;
  sh ← dict_lookup so tk;
  let c := add_in_window s.1 TURNOVER w (λ d, fmul (f Close tk d) (f Volume tk d)) in
  let c := add_in_window c CAPITALIZATION w (λ d, fmul (f Close tk d) (sh d)) in
  let c := set_in_window c tk w (λ d, fmul (f Close tk d) (sh d)) in
  if bool_decide (tk ∈ current_components tickers) then
    lst ← match last rows with Some d => Ok d | None => Err IndexError end;
    y ← dict_lookup dy tk;
    Ok (c, fadd s.2 (fmul (fmul (f Close tk lst) (sh lst)) y))
  else Ok (c, s.2).

(** [Metrics.__init__ (tickers, stock_index, start, hist_shares_outs)]; the
    data the feeds return for [start] is [src]. *)
Definition init (src : sources) (tickers : pydict window)
    (stock_index : option string) (hist : option (gmap string series))
  : result t :=
  let rows := yf_index src in
  let keys := dict_keys tickers in
  let f := bfill_frame rows (yf_download src) in
  let dy := fold_left (record_yield src) (current_components tickers) [] in
  let delisted := delisted_tickers rows f keys in
  f ← for_each (reconcile src tickers rows) delisted f;
  so ← for_each (resolve_shares src rows delisted hist) keys [];
  s ← for_each (aggregate tickers rows f dy so) keys (empty_capitalization, Fin 0);
  lst ← match last rows with Some d => Ok d | None => Err IndexError end;
  Ok {| ticker_symbols := tickers;
        index := rows;
        data := f;
        dividend_yield := dy;
        shares_outstanding := so;
        capitalization := s.1;
        forward_dividend_yield := fdiv s.2 (s.1 CAPITALIZATION lst);
        stock_index_data :=
          match stock_index with
          | Some ix => Some (Some (yf_index_close src ix))
          | None => None
          end |}.

(** ** The query methods *)

(** A frequency designator is modelled by the period it assigns to each
    date: two dates fall into the same bin exactly when they get the same
    period label. *)
Definition frequency : Type := date → Z.

(** [mean] skips the missing values; with none left the result is NaN. *)
Definition mean (l : list fl) : fl :=
  let v := List.filter notna l in
  match v with
  | [] => NaN
  | _ => fdiv (fold_left fadd v (Fin 0)) (fl_of_nat (length v))
  end.

Definition periods (freq : frequency) (rows : list date) : list Z :=
  remove_dups (map freq rows).

Definition period_rows (freq : frequency) (rows : list date) (p : Z) : list date :=
  List.filter (λ d, freq d =? p) rows.

(** [resample(frequency).mean()], on the periods that hold a row; the bins
    without rows come out as NaN in pandas and are dropped by [dropna]. *)
Definition resample_mean (freq : frequency) (rows : list date) (col : date → fl)
  : list (Z * fl) :=
  map (λ p, (p, mean (map col (period_rows freq rows p)))) (periods freq rows).

Definition dropna (s : list (Z * fl)) : list (Z * fl) :=
  List.filter (λ r, notna r.2) s.

(** Attribute access on a Series with a name that is none of its
    attributes: pandas then looks the name up among the index labels, which
    are timestamps here, and raises. *)
Definition series_getattr (s : list (Z * fl)) (name : string)
  : result (list (Z * fl)) :=
  Err (AttributeError name).

(** [ret += x] where the index of [x] is the slice [st:ed] of the index of
    [ret]: the rows outside the slice have no partner and become NaN. *)
Definition add_aligned (ret : date → fl) (w : window) (x : date → fl) : date → fl :=
  λ d, fadd (ret d) (if in_window w.1 w.2 d then x d else NaN).

(** The loop shared by the queries restricted to a list of tickers: the sum
    of [close * other] over the window of each ticker. *)
Definition subset_capitalization (m : t) (tickers : list string) : result (date → fl) :=
  for_each (λ ret tk,
      w ← dict_lookup (ticker_symbols m) tk;
      sh ← dict_lookup (shares_outstanding m) tk;
      Ok (add_aligned ret w (λ d, fmul (data m Close tk d) (sh d))))
    tickers (λ _, Fin 0).

Definition get_capitalization (m : t) (freq : frequency)
    (tickers : option (list string)) : result (list (Z * fl)) :=
  match tickers with
  | None =>
      Ok (dropna (resample_mean freq (index m) (capitalization m CAPITALIZATION)))
  | Some tks =>
      ret ← subset_capitalization m tks;
      r ← series_getattr (resample_mean freq (index m) ret) "ret";
      Ok (dropna r)
  end.

Definition get_daily_trading_value_ds (m : t) (tickers : option (list string))
  : result (date → fl) :=
  match tickers with
  | None => Ok (capitalization m TURNOVER)
  | Some tks =>
      for_each (λ daily_turnover tk,
          w ← dict_lookup (ticker_symbols m) tk;
          Ok (add_aligned daily_turnover w
                (λ d, fmul (data m Close tk d) (data m Volume tk d))))
        tks (λ _, Fin 0)
  end.

Definition get_daily_trading_value (m : t) (freq : frequency)
    (tickers : option (list string)) : result (list (Z * fl)) :=
  ds ← get_daily_trading_value_ds m tickers;
  Ok (dropna (resample_mean freq (index m) ds)).

Definition scale (k : Z) (s : list (Z * fl)) : list (Z * fl) :=
  map (prod_map id (λ x, fmul x (fl_of_Z k))) s.

Definition get_annual_trading_value (m : t) (freq : frequency)
    (tickers : option (list string)) : result (list (Z * fl)) :=
  s ← get_daily_trading_value m freq tickers;
  Ok (scale TRADING_DAYS_IN_YEAR s).

Definition get_daily_turnover (m : t) (freq : frequency)
    (tickers : option (list string)) : result (list (Z * fl)) :=
  daily_turnover ← get_daily_trading_value_ds m tickers;
  cap ← match tickers with
        | None => Ok (capitalization m CAPITALIZATION)
        | Some tks => subset_capitalization m tks
        end;
  Ok (dropna (resample_mean freq (index m)
                (λ d, fdiv (daily_turnover d) (cap d)))).

Definition get_annual_turnover (m : t) (freq : frequency)
    (tickers : option (list string)) : result (list (Z * fl)) :=
  s ← get_daily_turnover m freq tickers;
  Ok (scale TRADING_DAYS_IN_YEAR s).

(** The message of [ewm (alpha=alpha)] for a smoothing factor outside its
    range. *)
Definition alpha_msg : string := "alpha must satisfy: 0 < alpha <= 1".

Section Volatility.

(** [pct_change().ewm(alpha=alpha).std() * TO_ANNUAL_MULTIPLIER] on the
    index series, for a smoothing factor that [ewm] accepts; square roots
    leave the rationals, so the computation is kept abstract. *)
Variable ewm_volatility : Q → series → series.

(** An [Ok None] result stands for [return None]. *)
Definition get_annual_volatility (m : t) (alpha : Q) (freq : frequency)
  : result (option (list (Z * fl))) :=
  match stock_index_data m with
  | None => Err (AttributeError "stock_index_data")
  | Some None => Ok None
  | Some (Some s) =>
      if Qlt_bool 0 alpha && Qle_bool alpha 1 then
        let vol := ewm_volatility alpha s in
        Ok (Some (dropna (resample_mean freq vol.*1
                            (λ d, default NaN (series_get vol d)))))
      else Err (ValueError alpha_msg)
  end.

End Volatility.

End Metrics.

(** ** A small market used to run the model *)

Module Example.

Definition rows : list date := [1; 2; 3; 4; 5; 8; 9; 10].

(** A trades over the whole range, B has no feed data at all, and the first
    observation of C is on day 3. *)
Definition download : frame :=
  λ fld tk d,
    if String.eqb tk "A" then match fld with Close => Fin 100 | Volume => Fin 5 end
    else if String.eqb tk "C" then
      if d <? 3 then NaN else match fld with Close => Fin 10 | Volume => Fin 500 end
    else NaN.

Definition src : sources := {|
  yf_index := rows;
  yf_download := download;
  yf_dividendYield := λ tk, if String.eqb tk "A" then Some (Fin (2 # 100)) else None;
  yf_sharesOutstanding := λ tk, if String.eqb tk "A" then Some 700000 else None;
  yf_impliedSharesOutstanding := λ _, None;
  yf_shares_full := λ tk,
    if String.eqb tk "A" then [(1, 900000); (3, 1000000)]
    else if String.eqb tk "C" then [(2, 20)]
    else [];
  yf_index_close := λ _, [];
  cached_history := λ tk,
    if String.eqb tk "B"
    then Some [(1, (Fin 50, Fin 7)); (2, (Fin 50, Fin 7)); (3, (Fin 51, Fin 8))]
    else None;
  av_daily := λ _, Err (RemoteDataError "no API key")
|}.

Definition tickers : pydict window :=
  [("A", (None, None)); ("B", (None, Some 9)); ("C", (Some 3, None))]%string.

Definition hist : option (gmap string series) :=
  Some {[ "B"%string := [(1, Fin 20)] ]}.

End Example.

(** ** Variations of the example market *)

Module Scenarios.

(** The example feed with another set of row labels and another cache of
    historical extracts. *)
Definition feed (rows : list date) (cache : string → option (list hrow)) : sources := {|
  yf_index := rows;
  yf_download := yf_download Example.src;
  yf_dividendYield := yf_dividendYield Example.src;
  yf_sharesOutstanding := yf_sharesOutstanding Example.src;
  yf_impliedSharesOutstanding := yf_impliedSharesOutstanding Example.src;
  yf_shares_full := yf_shares_full Example.src;
  yf_index_close := yf_index_close Example.src;
  cached_history := cache;
  av_daily := av_daily Example.src
|}.

(** The feed returns no rows at all. *)
Definition no_rows : sources := feed [] (cached_history Example.src).

(** The extract of B holds a row for day 6, a Saturday, which is no row of
    the panel. *)
Definition weekend_extract : sources :=
  feed Example.rows
    (λ tk, if String.eqb tk "B"
           then Some [(1, (Fin 50, Fin 7)); (6, (Fin 51, Fin 8))]
           else None).

(** B has no feed data and is listed as a current member. *)
Definition tickers_current_B : pydict window :=
  [("A", (None, None)); ("B", (None, None)); ("C", (Some 3, None))]%string.


(** E has no feed data and no cached extract. *)
Definition tickers_with_E : pydict window :=
  [("A", (None, None)); ("E", (None, Some 9))]%string.

End Scenarios.

(** ** The aggregates in the words of the specification *)

Module Spec.

(** The sum of a list of values, from the left. *)
Definition fsum (l : list fl) : fl := fold_left fadd l (Fin 0).

(** The membership window of [tk] contains [d]. *)
Definition active (m : Metrics.t) (d : date) (tk : string) : bool :=
  match dict_get (Metrics.ticker_symbols m) tk with
  | Some w => in_window w.1 w.2 d
  | None => false
  end.

Definition close (m : Metrics.t) (tk : string) (d : date) : fl :=
  Metrics.data m Close tk d.

Definition volume (m : Metrics.t) (tk : string) (d : date) : fl :=
  Metrics.data m Volume tk d.

(** The resolved shares outstanding of [tk] at [d]. *)
Definition shares (m : Metrics.t) (tk : string) (d : date) : fl :=
  match dict_get (Metrics.shares_outstanding m) tk with
  | Some sh => sh d
  | None => NaN
  end.

(** Close price times shares outstanding. *)
Definition contribution (m : Metrics.t) (tk : string) (d : date) : fl :=
  fmul (close m tk d) (shares m tk d).

(** The sum of the contributions of the tickers active at [d]. *)
Definition capitalization (m : Metrics.t) (d : date) : fl :=
  fsum (map (λ tk, contribution m tk d)
          (List.filter (active m d) (dict_keys (Metrics.ticker_symbols m)))).

(** The same sum over all the tickers, the inactive ones counting zero. *)
Definition capitalization_all (m : Metrics.t) (d : date) : fl :=
  fsum (map (λ tk, if active m d tk then contribution m tk d else Fin 0)
          (dict_keys (Metrics.ticker_symbols m))).

(** A value whose rational, if any, is in lowest terms, as every result of
    an operation is. *)
Definition canonical (x : fl) : Prop :=
  match x with
  | Fin q => Qred q = q
  | _ => True
  end.

(** The sum of close price times volume over the tickers active at [d]. *)
Definition trading_value (m : Metrics.t) (d : date) : fl :=
  fsum (map (λ tk, fmul (close m tk d) (volume m tk d))
          (List.filter (active m d) (dict_keys (Metrics.ticker_symbols m)))).

(** The recorded dividend yield of [tk]. *)
Definition dividend_yield (m : Metrics.t) (tk : string) : fl :=
  match dict_get (Metrics.dividend_yield m) tk with
  | Some y => y
  | None => NaN
  end.

(** The dividends expected of the current components, at the prices and
    shares of [d]. *)
Definition dividends (m : Metrics.t) (d : date) : fl :=
  fsum (map (λ tk, fmul (contribution m tk d) (dividend_yield m tk))
          (List.filter (λ tk, bool_decide
                                (tk ∈ Metrics.current_components (Metrics.ticker_symbols m)))
             (dict_keys (Metrics.ticker_symbols m)))).

End Spec.

(** * Properties *)

(** ** Generic facts: results, loops and dictionaries *)

Lemma bind_Ok {A B} (r : result A) (k : A → result B) (b : B) :
  (r ≫= k) = Ok b → ∃ a, r = Ok a ∧ k a = Ok b.
Proof. destruct r as [a|e]; [eauto | discriminate]. Qed.

Lemma bind_Err_l {A B} (r : result A) (k : A → result B) :
  is_raised r → is_raised (r ≫= k).
Proof. intros [e ->]. by exists e. Qed.

Lemma not_raised_Ok {A} (r : result A) : ¬ is_raised r → ∃ a, r = Ok a.
Proof. destruct r as [a|e]; [eauto | intros []; by exists e]. Qed.

Lemma Ok_not_raised {A} (a : A) : ¬ is_raised (Ok a).
Proof. by intros [e ?]. Qed.

(** Ltac for peeling one monadic step off a hypothesis. *)
Ltac bind_inv H :=
  let a := fresh "a" in
  let Ha := fresh "H" a in
  apply bind_Ok in H; destruct H as (a & Ha & H).

Lemma for_each_app {A S} (body : S → A → result S) l1 l2 s :
  for_each body (l1 ++ l2) s = (for_each body l1 s ≫= for_each body l2).
Proof.
  revert s; induction l1 as [|a l1 IH]; intros s; simpl; [done|].
  destruct (body s a) as [s'|e]; simpl; [apply IH | done].
Qed.

(** An invariant kept by every successful step holds when the loop ends. *)
Lemma for_each_invariant {A S} (P : S → Prop) (body : S → A → result S) l s s' :
  (∀ s a s', a ∈ l → P s → body s a = Ok s' → P s') →
  P s → for_each body l s = Ok s' → P s'.
Proof.
  revert s; induction l as [|a l IH]; intros s Hstep Hs H; simpl in H.
  - by injection H as <-.
  - bind_inv H. eapply (IH a0); [| |done].
    + intros ? ? ? ?. apply Hstep. by right.
    + eapply Hstep; [by left|done..].
Qed.

Lemma String_eqb_decide (a b : string) : String.eqb a b = bool_decide (a = b).
Proof. destruct (String.eqb_spec a b); [rewrite bool_decide_true | rewrite bool_decide_false]; done. Qed.

Lemma dict_get_Some_keys {V} (d : pydict V) k v :
  dict_get d k = Some v → k ∈ dict_keys d.
Proof.
  induction d as [|[k' v'] d IH]; simpl; [done|].
  destruct (String.eqb_spec k' k) as [->|]; [left | right; auto].
Qed.

Lemma dict_get_None_keys {V} (d : pydict V) k :
  dict_get d k = None ↔ k ∉ dict_keys d.
Proof.
  induction d as [|[k' v'] d IH]; simpl.
  - split; [intros _; apply not_elem_of_nil | done].
  - rewrite not_elem_of_cons. destruct (String.eqb_spec k' k) as [->|]; [|rewrite IH]; naive_solver.
Qed.

Lemma dict_keys_set {V} (d : pydict V) k v :
  dict_keys (dict_set d k v) =
  if bool_decide (k ∈ dict_keys d) then dict_keys d else dict_keys d ++ [k].
Proof.
  induction d as [|[k' v'] d IH]; simpl; [done|].
  destruct (String.eqb_spec k' k) as [->|Hne]; simpl.
  - rewrite bool_decide_true; [done | left].
  - unfold dict_keys in *. rewrite IH.
    destruct (bool_decide_reflect (k ∈ d.*1)) as [Hin|Hin].
    + rewrite bool_decide_true; [done | by right].
    + rewrite bool_decide_false; [done|]. rewrite not_elem_of_cons. naive_solver.
Qed.

Lemma dict_get_set {V} (d : pydict V) k k' v :
  dict_get (dict_set d k v) k' = if String.eqb k k' then Some v else dict_get d k'.
Proof.
  induction d as [|[k0 v0] d IH]; simpl.
  - done.
  - destruct (String.eqb_spec k0 k) as [->|Hne]; simpl.
    + by destruct (String.eqb k k').
    + rewrite IH. destruct (String.eqb_spec k0 k') as [->|]; [|done].
      destruct (String.eqb_spec k k'); [congruence | done].
Qed.

(** ** The change-log replay *)

Section Replay.
Import USStockMarketMetrics.

Lemma dict_set_NoDup {V} (d : pydict V) k v :
  NoDup (dict_keys d) → NoDup (dict_keys (dict_set d k v)).
Proof.
  intros Hd. rewrite dict_keys_set. case_bool_decide; [done|].
  apply NoDup_app. split_and!; [done | | apply NoDup_singleton].
  intros x Hx ->%list_elem_of_singleton. done.
Qed.

Lemma dict_set_keys_elem {V} (d : pydict V) k v x :
  x ∈ dict_keys (dict_set d k v) ↔ x ∈ dict_keys d ∨ x = k.
Proof.
  rewrite dict_keys_set. case_bool_decide.
  - naive_solver.
  - rewrite elem_of_app, list_elem_of_singleton. done.
Qed.

Lemma initial_inv (w : window) (comps : list string) (d : pydict window) (l : list string) :
  replay_inv (d, l) →
  replay_inv (fold_left (λ d t, dict_set d t w) comps d, l ++ comps).
Proof.
  revert d l; induction comps as [|c comps IH]; intros d l [Hnd Hk]; simpl in *.
  - by rewrite app_nil_r.
  - replace (l ++ c :: comps) with ((l ++ [c]) ++ comps) by by rewrite <- app_assoc.
    apply IH. split; simpl.
    + by apply dict_set_NoDup.
    + intros k. rewrite dict_set_keys_elem, elem_of_app, list_elem_of_singleton, Hk. done.
Qed.

Lemma add_tickers_keys ts l ret ret' :
  for_each (add_ticker ts) l ret = Ok ret' → dict_keys ret' = dict_keys ret.
Proof.
  apply (for_each_invariant (λ r, dict_keys r = dict_keys ret)); [|done].
  intros r a r' _ Hr. unfold add_ticker.
  destruct (dict_get r a) as [[st ed]|] eqn:Hg; [|done].
  intros [= <-]. rewrite dict_keys_set, bool_decide_true; [done|].
  by eapply dict_get_Some_keys.
Qed.

Lemma remove_tickers_inv start ts l s :
  replay_inv s →
  replay_inv (fold_left (remove_ticker start ts) l s) ∧
  (fold_left (remove_ticker start ts) l s).2 = s.2 ++ l.
Proof.
  revert s; induction l as [|x l IH]; intros s Hs; simpl.
  - by rewrite app_nil_r.
  - destruct (IH (remove_ticker start ts s x)) as [Hi Hl].
    + destruct Hs as [Hnd Hk]. split; simpl.
      * by apply dict_set_NoDup.
      * intros k. rewrite dict_set_keys_elem, elem_of_app, list_elem_of_singleton, Hk. done.
    + split; [done|]. rewrite Hl. simpl. by rewrite <- app_assoc.
Qed.

Lemma replay_spec s0 rows s s' :
  replay (Some s0) rows s = Ok s' →
  replay_inv s →
  replay_inv s' ∧ s'.2 = s.2 ++ flat_map ch_removed (processed s0 rows).
Proof.
  revert s; induction rows as [|row rows IH]; intros s H Hs; simpl in *.
  - injection H as <-. by rewrite app_nil_r.
  - destruct (ch_date row <? s0).
    + injection H as <-. by rewrite app_nil_r.
    + bind_inv H. unfold replay_row in Ha. bind_inv Ha. injection Ha as <-.
      apply add_tickers_keys in Ha0.
      destruct (remove_tickers_inv (Some s0) (ch_date row) (ch_removed row) (a0, s.2))
        as [Hi Hl].
      { destruct Hs as [Hnd Hk]. split; simpl; by rewrite Ha0. }
      destruct (IH _ H Hi) as [Hi' Hl'].
      split; [done|]. rewrite Hl', Hl. simpl. by rewrite <- app_assoc.
Qed.

(** With the invariant, the test on the two lengths is a test for a
    repeated entry of [all_components]. *)
Lemma length_test_NoDup (s : replay_state) :
  replay_inv s → (length s.1 <? length s.2)%nat = bool_decide (¬ NoDup s.2).
Proof.
  intros [Hnd Hk].
  assert (length s.1 = length (dict_keys s.1)) as -> by (unfold dict_keys; by rewrite length_fmap).
  assert (dict_keys s.1 ⊆+ s.2) as Hsub.
  { apply NoDup_submseteq; [done|]. intros k. apply Hk. }
  destruct (bool_decide_reflect (¬ NoDup s.2)) as [Hdup|Hdup].
  - apply Nat.ltb_lt. apply submseteq_length in Hsub as Hle.
    destruct (decide (length (dict_keys s.1) = length s.2)) as [Heq|]; [|lia].
    exfalso. apply Hdup.
    rewrite <- (submseteq_length_Permutation _ _ Hsub); [done | lia].
  - apply Nat.ltb_ge. apply dec_stable in Hdup.
    assert (s.2 ⊆+ dict_keys s.1) as Hsub'.
    { apply NoDup_submseteq; [done|]. intros k. apply Hk. }
    by apply submseteq_length.
Qed.

(** What the function returns, in terms of the replay alone. *)
Lemma get_sp500_historical_components_spec comps df s0 :
  get_sp500_historical_components comps df (Some s0) =
  (s ← replay (Some s0) (rev df)
        (fold_left (λ d t, dict_set d t (Some s0, None)) comps [], comps);
   if bool_decide (NoDup (comps ++ flat_map ch_removed (processed s0 (rev df))))
   then Ok s.1 else Err (ValueError added_twice_msg)).
Proof.
  unfold get_sp500_historical_components.
  destruct (replay _ _ _) as [[ret all]|e] eqn:Hr; simpl; [|done].
  apply replay_spec in Hr as [Hi Hall].
  - pose proof (length_test_NoDup (ret, all) Hi) as Hlen. simpl in *.
    rewrite Hlen, Hall. clear Hlen.
    destruct (decide (NoDup (comps ++ flat_map ch_removed (processed s0 (rev df)))));
      [rewrite bool_decide_false, bool_decide_true
      |rewrite bool_decide_true, bool_decide_false]; auto.
  - apply (initial_inv _ comps [] []). split; simpl; [constructor|done].
Qed.

End Replay.

(** C6, as amended: during the backward replay of the change log, when a
    ticker named as removed by a processed event is already tracked (it is
    a current member, or a later-dated processed event removed it too), that
    is, when the current members followed by the removed tickers of the
    processed events contain a ticker twice, building the membership map
    raises instead of returning a map. *)
Theorem components_repeated_removal_raises
    (comps : list string) (df : list USStockMarketMetrics.change) (s0 : date) :
  ¬ NoDup (comps ++ flat_map USStockMarketMetrics.ch_removed
                      (USStockMarketMetrics.processed s0 (rev df))) →
  is_raised (USStockMarketMetrics.get_sp500_historical_components comps df (Some s0)).
Proof.
  intros Hdup. rewrite get_sp500_historical_components_spec.
  destruct (USStockMarketMetrics.replay _ _ _) as [s|e]; simpl.
  - rewrite bool_decide_false by done. by eexists.
  - by eexists.
Qed.

Lemma components_repeated_removal_raises_witness :
  let df := [USStockMarketMetrics.Change 10 ["A"] ["B"];
             USStockMarketMetrics.Change 15 [] ["A"];
             USStockMarketMetrics.Change 20 ["A"] ["C"]]%string in
  ¬ NoDup (["A"%string] ++ flat_map USStockMarketMetrics.ch_removed
                      (USStockMarketMetrics.processed 5 (rev df))) ∧
  is_raised (USStockMarketMetrics.get_sp500_historical_components ["A"%string] df (Some 5)).
Proof.
  intros df.
  assert (¬ NoDup (["A"%string] ++ flat_map USStockMarketMetrics.ch_removed
                      (USStockMarketMetrics.processed 5 (rev df)))) as H.
  { apply (bool_decide_unpack _). vm_compute. exact I. }
  split; [exact H | exact (components_repeated_removal_raises _ df 5 H)].
Defined.

(** C6, as stated, fails: ticker A is given a start twice with no removal
    of A in between, and the map is returned. *)
Lemma components_two_starts_counterexample :
  let df := [USStockMarketMetrics.Change 10 ["A"] ["B"];
             USStockMarketMetrics.Change 20 ["A"] ["C"]]%string in
  ¬ (USStockMarketMetrics.two_starts_without_removal
       (USStockMarketMetrics.processed 5 (rev df)) "A" →
     is_raised (USStockMarketMetrics.get_sp500_historical_components
                  ["A"%string] df (Some 5))).
Proof.
  intros df Himp.
  assert (USStockMarketMetrics.get_sp500_historical_components ["A"%string] df (Some 5)
          = Ok [("A", (Some 10, None)); ("C", (Some 5, Some 19));
                ("B", (Some 5, Some 9))]%string) as Hrun by reflexivity.
  destruct Himp as [e He]; [|rewrite Hrun in He; discriminate].
  exists [], (USStockMarketMetrics.Change 20 ["A"] ["C"])%string, [],
         (USStockMarketMetrics.Change 10 ["A"] ["B"])%string, [].
  split_and!; simpl.
  - reflexivity.
  - apply list_elem_of_singleton; reflexivity.
  - apply list_elem_of_singleton; reflexivity.
  - intros Hin%list_elem_of_singleton. discriminate.
  - intros r Hr. by apply elem_of_nil in Hr.
Qed.

(** ** The share-class correction *)

Lemma Qlt_bool_iff (a b : Q) : Qlt_bool a b = true ↔ (a < b)%Q.
Proof. unfold Qlt_bool, Qlt. apply Z.ltb_lt. Qed.

Section Rounding.
Local Open Scope Q_scope.

Lemma pow2_pos k : 0 < pow2 k.
Proof. unfold pow2. apply Qpower_0_lt. reflexivity. Qed.

Lemma pow2_add a b : pow2 (a + b) == pow2 a * pow2 b.
Proof. unfold pow2. apply Qpower_plus. discriminate. Qed.

Lemma pow2_lt a b : (a < b)%Z → pow2 a < pow2 b.
Proof. intros H. unfold pow2. apply Qpower_lt_compat_l; [done | reflexivity]. Qed.

Lemma pow2_le a b : (a <= b)%Z → pow2 a <= pow2 b.
Proof. intros H. unfold pow2. apply Qpower_le_compat_l; [done | discriminate]. Qed.

Lemma pow2_lt_inv a b : pow2 a < pow2 b → (a < b)%Z.
Proof. intros H. unfold pow2 in H. eapply Qpower_lt_compat_l_inv; [exact H | reflexivity]. Qed.

Lemma pow2_Z k : (0 <= k)%Z → pow2 k == inject_Z (2 ^ k).
Proof. intros H. unfold pow2. by rewrite Zpower_Qpower. Qed.

Lemma pow2_succ k : pow2 (k + 1) == 2 * pow2 k.
Proof. rewrite pow2_add. change (pow2 1) with 2. ring. Qed.

(** [Qlog2 q] is the exponent of the binade of [q]. *)
Lemma Qlog2_spec (q : Q) : 0 < q → pow2 (Qlog2 q) <= q ∧ q < pow2 (Qlog2 q + 1).
Proof.
  intros Hq. unfold Qlog2.
  set (a := Qnum q). set (b := Zpos (Qden q)).
  assert (0 < a)%Z as Ha by (unfold Qlt in Hq; simpl in Hq; unfold a; lia).
  assert (0 < b)%Z as Hb by (unfold b; lia).
  destruct (Z.log2_spec a Ha) as [Ha1 Ha2], (Z.log2_spec b Hb) as [Hb1 Hb2].
  pose proof (Z.log2_nonneg a) as Hla. pose proof (Z.log2_nonneg b) as Hlb.
  set (la := Z.log2 a) in *. set (lb := Z.log2 b) in *.
  assert (q * inject_Z b == inject_Z a) as Hqab.
  { unfold Qeq, a, b. simpl. destruct q as [n d]; simpl. lia. }
  assert (pow2 la <= inject_Z a) as HA1 by (rewrite pow2_Z by done; by rewrite <- Zle_Qle).
  assert (inject_Z a < 2 * pow2 la) as HA2.
  { rewrite <- pow2_succ, pow2_Z by lia. rewrite <- Zlt_Qlt. by rewrite Z.add_1_r. }
  assert (pow2 lb <= inject_Z b) as HB1 by (rewrite pow2_Z by done; by rewrite <- Zle_Qle).
  assert (inject_Z b < 2 * pow2 lb) as HB2.
  { rewrite <- pow2_succ, pow2_Z by lia. rewrite <- Zlt_Qlt. by rewrite Z.add_1_r. }
  pose proof (pow2_pos la) as HX. pose proof (pow2_pos lb) as HY.
  assert (∀ k, pow2 (la - lb + k) * pow2 lb == pow2 k * pow2 la) as Hd.
  { intros k. rewrite <- !pow2_add. by replace (la - lb + k + lb)%Z with (k + la)%Z by lia. }
  assert (q < pow2 (la - lb + 1)) as Hup.
  { apply Qmult_lt_r with (z := pow2 lb); [done|]. rewrite Hd.
    change (pow2 1) with 2. nra. }
  assert (pow2 (la - lb - 1) < q) as Hlo.
  { apply Qmult_lt_r with (z := pow2 lb); [done|].
    replace (la - lb - 1)%Z with (la - lb + -1)%Z by lia. rewrite Hd.
    change (pow2 (-1)) with (1 # 2). nra. }
  destruct (Qle_bool (pow2 (la - lb)) q) eqn:Hc.
  - apply Qle_bool_iff in Hc. done.
  - split; [by apply Qlt_le_weak|].
    replace (la - lb - 1 + 1)%Z with (la - lb)%Z by lia.
    apply Qnot_le_lt. intros Hle. apply Qle_bool_iff in Hle. congruence.
Qed.

Lemma rne_le (x : Q) (k : Z) : x < inject_Z k + (1 # 2) → (rne x <= k)%Z.
Proof.
  intros H. unfold rne.
  pose proof (Qfloor_le x) as Hf. pose proof (Qlt_floor x) as Hf'.
  rewrite inject_Z_plus in Hf'. change (inject_Z 1) with 1 in Hf'.
  assert (Qfloor x <= k)%Z as Hfk.
  { apply Z.lt_succ_r. rewrite Zlt_Qlt. rewrite <- Z.add_1_r, inject_Z_plus.
    change (inject_Z 1) with 1. lra. }
  destruct (Qcompare_spec (x - inject_Z (Qfloor x)) (1 # 2)) as [He|Hl|Hg].
  - destruct (Z.even _); [done|].
    assert (Qfloor x ≠ k); [|lia]. intros <-. lra.
  - done.
  - assert (Qfloor x ≠ k); [|lia]. intros <-. lra.
Qed.

Lemma rne_ge (x : Q) (k : Z) : inject_Z k - (1 # 2) < x → (k <= rne x)%Z.
Proof.
  intros H. unfold rne.
  pose proof (Qfloor_le x) as Hf. pose proof (Qlt_floor x) as Hf'.
  rewrite inject_Z_plus in Hf'. change (inject_Z 1) with 1 in Hf'.
  assert (k <= Qfloor x + 1)%Z as Hfk.
  { apply Z.lt_succ_r. rewrite Zlt_Qlt. rewrite <- !Z.add_1_r, !inject_Z_plus.
    change (inject_Z 1) with 1. lra. }
  destruct (Qcompare_spec (x - inject_Z (Qfloor x)) (1 # 2)) as [He|Hl|Hg].
  - destruct (Z.even _); [|done].
    assert (k ≠ Qfloor x + 1)%Z; [|lia]. intros ->.
    rewrite inject_Z_plus in H. change (inject_Z 1) with 1 in H. lra.
  - assert (k ≠ Qfloor x + 1)%Z; [|lia]. intros ->.
    rewrite inject_Z_plus in H. change (inject_Z 1) with 1 in H. lra.
  - done.
Qed.

(** The rounding error of [rne] is at most one half. *)
Lemma rne_error (x : Q) :
  x - (1 # 2) <= inject_Z (rne x) ∧ inject_Z (rne x) <= x + (1 # 2).
Proof.
  pose proof (Qfloor_le x) as Hf. pose proof (Qlt_floor x) as Hf'.
  rewrite inject_Z_plus in Hf'. change (inject_Z 1) with 1 in Hf'.
  unfold rne.
  destruct (Qcompare_spec (x - inject_Z (Qfloor x)) (1 # 2)) as [He|Hl|Hg].
  - destruct (Z.even _); [lra|]. rewrite inject_Z_plus. change (inject_Z 1) with 1. lra.
  - lra.
  - rewrite inject_Z_plus. change (inject_Z 1) with 1. lra.
Qed.

(** In the range of the normal numbers the spacing is [2^(e-52)]. *)
Lemma round64_pos_normal (q : Q) :
  pow2 (-1022) <= q →
  round64_pos q = inject_Z (rne (q / pow2 (Qlog2 q - 52))) * pow2 (Qlog2 q - 52).
Proof.
  intros Hq. unfold round64_pos.
  assert (0 < q) as Hpos by (pose proof (pow2_pos (-1022)); lra).
  destruct (Qlog2_spec q Hpos) as [_ Hup].
  assert (-1022 < Qlog2 q + 1)%Z as He by (apply pow2_lt_inv; lra).
  by rewrite Z.max_l by lia.
Qed.

(** The relative error of the rounding is at most [2^-53]. *)
Lemma round64_pos_error (q : Q) :
  pow2 (-1022) <= q →
  q - q * pow2 (-53) <= round64_pos q ∧ round64_pos q <= q + q * pow2 (-53).
Proof.
  intros Hq. rewrite (round64_pos_normal q Hq).
  assert (0 < q) as Hpos by (pose proof (pow2_pos (-1022)); lra).
  destruct (Qlog2_spec q Hpos) as [Hlo _].
  set (e := Qlog2 q) in *. set (u := pow2 (e - 52)).
  assert (0 < u) as Hu by apply pow2_pos.
  destruct (rne_error (q / u)) as [H1 H2].
  assert (q / u * u == q) as Hqu by (field; lra).
  assert (u * (1 # 2) <= q * pow2 (-53)) as Hhalf.
  { assert (u * (1 # 2) == pow2 e * pow2 (-53)) as ->.
    { unfold u. rewrite <- pow2_add.
      replace (e + -53)%Z with (e - 52 + -1)%Z by lia. rewrite pow2_add.
      change (pow2 (-1)) with (1 # 2). ring. }
    pose proof (pow2_pos (-53)). nra. }
  set (n := inject_Z (rne (q / u))) in *.
  split; nra.
Qed.

Lemma rne_eq (x : Q) (k : Z) : x == inject_Z k → rne x = k.
Proof. intros H. apply Z.le_antisymm; [apply rne_le | apply rne_ge]; lra. Qed.

Lemma pow2_bounds : pow2 (-1022) <= 1 ∧ inject_Z (2 ^ 120) <= pow2 1023.
Proof.
  split.
  - change 1 with (pow2 0). by apply pow2_le.
  - rewrite <- pow2_Z by done. by apply pow2_le.
Qed.

(** A positive value in the normal range rounds to a finite float close to
    it. *)
Lemma round64_range (q : Q) :
  pow2 (-1022) <= q → q < pow2 1023 →
  round64 q = Fin (Qred (round64_pos q)) ∧
  q - q * pow2 (-53) <= Qred (round64_pos q) ∧
  Qred (round64_pos q) <= q + q * pow2 (-53).
Proof.
  intros Hlo Hhi. destruct (round64_pos_error q Hlo) as [H1 H2].
  assert (0 < q) as Hpos by (pose proof (pow2_pos (-1022)); lra).
  change (pow2 (-53)) with (1 # 9007199254740992) in *.
  split_and!; [|rewrite Qred_correct; lra..].
  unfold round64. apply Qgt_alt in Hpos as ->.
  assert (0 <= round64_pos q) as Hr by lra.
  destruct (Qle_bool (pow2 1024) (Qabs (round64_pos q))) eqn:Hc; [|done].
  exfalso. apply Qle_bool_iff in Hc. rewrite (Qabs_pos _ Hr) in Hc.
  assert (pow2 1024 == 2 * pow2 1023) as Hp by apply (pow2_succ 1023).
  lra.
Qed.

Lemma Qred_inject_Z (z : Z) : Qred (inject_Z z) = inject_Z z.
Proof.
  unfold Qred, inject_Z. simpl.
  pose proof (Z.ggcd_gcd z 1) as Hg. pose proof (Z.ggcd_correct_divisors z 1) as Hd.
  destruct (Z.ggcd z 1) as [g [a b]]; simpl in *.
  rewrite Z.gcd_1_r in Hg. subst g. destruct Hd as [Ha Hb].
  rewrite Z.mul_1_l in Ha, Hb. by subst.
Qed.

(** An integer below [2^53] is a float. *)
Lemma round64_Z (z : Z) : (0 < z < 2 ^ 53)%Z → round64 (inject_Z z) = Fin (inject_Z z).
Proof.
  intros [Hz1 Hz2]. destruct pow2_bounds as [Hb1 Hb2].
  assert (1 <= inject_Z z) as Hone by (change 1 with (inject_Z 1); rewrite <- Zle_Qle; lia).
  assert (inject_Z z < inject_Z (2 ^ 120)) as Hup by (rewrite <- Zlt_Qlt; lia).
  destruct (round64_range (inject_Z z)) as (-> & _); [lra | lra |].
  f_equal. rewrite <- (Qred_inject_Z z) at 2. apply Qred_complete.
  rewrite round64_pos_normal by lra.
  destruct (Qlog2_spec (inject_Z z)) as [Hlo _]; [lra|].
  set (e := Qlog2 (inject_Z z)) in *.
  assert (e < 53)%Z as He.
  { apply pow2_lt_inv. rewrite (pow2_Z 53) by done.
    eapply Qle_lt_trans; [exact Hlo|]. rewrite <- Zlt_Qlt. lia. }
  assert (pow2 (e - 52) * pow2 (52 - e) == 1) as Huv.
  { rewrite <- pow2_add. by replace (e - 52 + (52 - e))%Z with 0%Z by lia. }
  pose proof (pow2_pos (e - 52)) as Hu.
  rewrite (rne_eq _ (z * 2 ^ (52 - e))).
  - rewrite inject_Z_mult, <- pow2_Z by lia.
    rewrite <- Qmult_assoc, (Qmult_comm (pow2 (52 - e))), Huv. ring.
  - rewrite inject_Z_mult, <- pow2_Z by lia.
    apply Qmult_inj_r with (z := pow2 (e - 52)); [lra|].
    rewrite <- Qmult_assoc, (Qmult_comm (pow2 (52 - e))), Huv. field. lra.
Qed.

(** Below [2^52] the floats are multiples of the spacing that contain the
    integers: a value just below an integer rounds up to it. *)
Lemma round64_pos_ge_int (q : Q) (L : Z) :
  pow2 (-1022) <= q → q < pow2 52 →
  inject_Z L - q < q * pow2 (-54) →
  inject_Z L <= round64_pos q.
Proof.
  intros Hlo Hhi Hnear. rewrite round64_pos_normal by done.
  assert (0 < q) as Hpos by (pose proof (pow2_pos (-1022)); lra).
  destruct (Qlog2_spec q Hpos) as [He1 He2].
  set (e := Qlog2 q) in *.
  assert (e < 52)%Z as He by (apply pow2_lt_inv; lra).
  set (u := pow2 (e - 52)). set (v := pow2 (52 - e)).
  assert (0 < u) as Hu by apply pow2_pos. assert (0 < v) as Hv by apply pow2_pos.
  assert (u * v == 1) as Huv.
  { unfold u, v. rewrite <- pow2_add. by replace (e - 52 + (52 - e))%Z with 0%Z by lia. }
  assert (pow2 e == u * inject_Z (2 ^ 52)) as Hue.
  { unfold u. rewrite <- pow2_Z, <- pow2_add by done.
    by replace (e - 52 + 52)%Z with e by lia. }
  rewrite pow2_succ in He2.
  change (pow2 (-54)) with (1 # 18014398509481984) in Hnear.
  change (inject_Z (2 ^ 52)) with 4503599627370496 in Hue.
  assert (inject_Z L - q < u * (1 # 2)) as Hgap by lra.
  assert ((inject_Z L - q) * v < u * (1 # 2) * v) as Hgapv
    by (apply Qmult_lt_compat_r; done).
  assert (inject_Z (L * 2 ^ (52 - e)) == inject_Z L * v) as HK.
  { rewrite inject_Z_mult. unfold v. by rewrite pow2_Z by lia. }
  assert (q / u == q * v) as Hqu.
  { apply Qmult_inj_r with (z := u); [lra|].
    assert (q / u * u == q) as -> by (field; lra).
    rewrite <- Qmult_assoc, (Qmult_comm v), Huv. ring. }
  assert (L * 2 ^ (52 - e) <= rne (q / u))%Z as Hn.
  { apply rne_ge. rewrite HK, Hqu. 
    assert (u * (1 # 2) * v == 1 # 2) as Hh by (rewrite (Qmult_comm u), <- Qmult_assoc, Huv; ring).
    rewrite Hh in Hgapv. lra. }
  rewrite Zle_Qle, HK in Hn.
  assert (inject_Z L * v * u <= inject_Z (rne (q / u)) * u) as Hm
    by (apply Qmult_le_compat_r; [done | lra]).
  assert (inject_Z L * v * u == inject_Z L) as Hl
    by (rewrite <- Qmult_assoc, (Qmult_comm v), Huv; ring).
  by rewrite Hl in Hm.
Qed.

Lemma round64_12 : round64 (12 # 10) = Fin (5404319552844595 # 4503599627370496).
Proof. vm_compute. reflexivity. Qed.

(** For a count below [2^50] the float test [current * 1.2 < latest] decides
    exactly whether [latest] exceeds [current] by more than 20%. *)
Lemma times_1_2_spec (c L : Z) :
  (0 < c < 2 ^ 50)%Z →
  ∃ x, Metrics.times_1_2 c = Ok (Fin x) ∧ (x < inject_Z L ↔ (12 * c < 10 * L)%Z).
Proof.
  intros [Hc1 Hc2]. unfold Metrics.times_1_2.
  unfold py_float. rewrite round64_Z, round64_12 by lia.
  set (P := inject_Z c * (5404319552844595 # 4503599627370496)).
  change (Ok (Fin (inject_Z c)) ≫= _) with (Ok (A := fl) (round64 P)).
  destruct pow2_bounds as [Hb1 Hb2].
  assert (1 <= inject_Z c) as HC1 by (change 1 with (inject_Z 1); rewrite <- Zle_Qle; lia).
  assert (inject_Z c < 1125899906842624) as HC2
    by (change 1125899906842624 with (inject_Z (2 ^ 50)); rewrite <- Zlt_Qlt; lia).
  change (inject_Z (2 ^ 120)) with 1329227995784915872903807060280344576 in Hb2.
  destruct (round64_range P) as (-> & Hr1 & Hr2); [unfold P; lra | unfold P; lra |].
  change (pow2 (-53)) with (1 # 9007199254740992) in *.
  eexists. split; [reflexivity|]. split.
  - intros Hlt. apply Z.nle_gt. intros Hge.
    assert (inject_Z L <= round64_pos P) as Hup.
    { apply round64_pos_ge_int.
      - unfold P. lra.
      - rewrite (pow2_Z 52) by done. change (inject_Z (2 ^ 52)) with 4503599627370496.
        unfold P. lra.
      - change (pow2 (-54)) with (1 # 18014398509481984).
        assert (10 * inject_Z L <= 12 * inject_Z c) as HL.
        { change 10 with (inject_Z 10). change 12 with (inject_Z 12).
          rewrite <- !inject_Z_mult, <- Zle_Qle. lia. }
        unfold P. lra. }
    rewrite Qred_correct in Hlt. lra.
  - intros Hlt.
    assert (12 * inject_Z c + 1 <= 10 * inject_Z L) as HL.
    { change 10 with (inject_Z 10). change 12 with (inject_Z 12). change 1 with (inject_Z 1).
      rewrite <- !inject_Z_mult, <- inject_Z_plus, <- Zle_Qle. lia. }
    unfold P in *. lra.
Qed.

Lemma pow2_bounds_200 : pow2 (-1022) <= 1 # 1606938044258990275541962092341162602522202993782792835301376 ∧ 1606938044258990275541962092341162602522202993782792835301376 <= pow2 1023.
Proof.
  split.
  - change (1 # 1606938044258990275541962092341162602522202993782792835301376) with (pow2 (-200)). by apply pow2_le.
  - change 1606938044258990275541962092341162602522202993782792835301376 with (inject_Z (2 ^ 200)). rewrite <- pow2_Z by done.
    by apply pow2_le.
Qed.

(** A magnitude that no computation on share counts leaves. *)
Lemma round64_moderate (q : Q) :
  1 # 1606938044258990275541962092341162602522202993782792835301376 <= q → q <= 1606938044258990275541962092341162602522202993782792835301376 →
  round64 q = Fin (Qred (round64_pos q)) ∧
  q - q * (1 # 9007199254740992) <= Qred (round64_pos q) ∧
  Qred (round64_pos q) <= q + q * (1 # 9007199254740992).
Proof.
  intros Hlo Hhi. destruct pow2_bounds_200 as [Hb1 Hb2].
  assert (1606938044258990275541962092341162602522202993782792835301376 < pow2 1023) as Hb3.
  { eapply Qlt_le_trans; [|apply (pow2_le 201 1023); done]. 
    rewrite (pow2_Z 201) by done. reflexivity. }
  apply round64_range; lra.
Qed.

Lemma py_float_pos (z : Z) :
  (0 < z < 2 ^ 63)%Z →
  ∃ f, py_float z = Ok (Fin f) ∧
       inject_Z z - inject_Z z * (1 # 9007199254740992) <= f ∧
       f <= inject_Z z + inject_Z z * (1 # 9007199254740992).
Proof.
  intros [Hz1 Hz2]. unfold py_float.
  assert (1 <= inject_Z z) as Hone by (change 1 with (inject_Z 1); rewrite <- Zle_Qle; lia).
  assert (inject_Z z < 9223372036854775808) as Hup
    by (change 9223372036854775808 with (inject_Z (2 ^ 63)); rewrite <- Zlt_Qlt; lia).
  destruct (round64_moderate (inject_Z z)) as (-> & H1 & H2); [lra | lra |].
  by eexists.
Qed.

(** The factor of the correction is [current / denom] up to two roundings. *)
Lemma ratio_of_spec (c denom : Z) :
  (0 < c < 2 ^ 50)%Z → (0 < denom < 2 ^ 63)%Z →
  ∃ ratio, Metrics.ratio_of c denom = Ok (Fin ratio) ∧
    inject_Z c * (1 - (1 # 2251799813685248)) <= ratio * inject_Z denom ∧
    ratio * inject_Z denom <= inject_Z c * (1 + (1 # 2251799813685248)) ∧
    1 # 18446744073709551616 <= ratio ∧ ratio <= 2251799813685248.
Proof.
  intros [Hc1 Hc2] Hd. unfold Metrics.ratio_of.
  destruct (py_float_pos denom Hd) as (fd & -> & Hfd1 & Hfd2).
  unfold py_float. rewrite round64_Z by lia.
  assert (1 <= inject_Z c) as HC1 by (change 1 with (inject_Z 1); rewrite <- Zle_Qle; lia).
  assert (inject_Z c < 1125899906842624) as HC2
    by (change 1125899906842624 with (inject_Z (2 ^ 50)); rewrite <- Zlt_Qlt; lia).
  assert (1 <= inject_Z denom) as HD1
    by (change 1 with (inject_Z 1); rewrite <- Zle_Qle; lia).
  assert (inject_Z denom < 9223372036854775808) as HD2
    by (change 9223372036854775808 with (inject_Z (2 ^ 63)); rewrite <- Zlt_Qlt; lia).
  set (C := inject_Z c) in *. set (D := inject_Z denom) in *.
  assert (0 < fd) as Hfd by lra.
  change (Ok (Fin fd) ≫= _) with (py_truediv (Fin C) (Fin fd)).
  unfold py_truediv.
  assert (Qeq_bool fd 0 = false) as ->.
  { apply not_true_is_false. intros Hz%Qeq_bool_iff. lra. }
  set (y := C / fd).
  assert (y * fd == C) as Hy by (unfold y; field; lra).
  assert (0 < y) as Hypos by (unfold y; apply Qlt_shift_div_l; lra).
  assert (3 # 36893488147419103232 <= y) as Hy1 by (unfold y; apply Qle_shift_div_l; lra).
  assert (y <= 1125899906842624 * (1 + (1 # 4503599627370496))) as Hy2
    by (unfold y; apply Qle_shift_div_r; lra).
  destruct (round64_moderate y) as (-> & Hr1 & Hr2); [lra | lra |].
  set (r := Qred (round64_pos y)) in *.
  eexists. split; [reflexivity|].
  assert (y * (D - D * (1 # 9007199254740992)) <= y * fd) as Ha1
    by (rewrite !(Qmult_comm y); apply Qmult_le_compat_r; lra).
  assert (y * fd <= y * (D + D * (1 # 9007199254740992))) as Ha2
    by (rewrite !(Qmult_comm y); apply Qmult_le_compat_r; lra).
  assert ((y - y * (1 # 9007199254740992)) * D <= r * D) as Hb1
    by (apply Qmult_le_compat_r; lra).
  assert (r * D <= (y + y * (1 # 9007199254740992)) * D) as Hb2
    by (apply Qmult_le_compat_r; lra).
  assert (0 < y * D) as HyD by (apply Qmult_lt_0_compat; lra).
  set (A := y * D) in *. set (B := r * D) in *.
  assert (y * (D - D * (1 # 9007199254740992)) == A - A * (1 # 9007199254740992)) as E1
    by (unfold A; ring).
  assert (y * (D + D * (1 # 9007199254740992)) == A + A * (1 # 9007199254740992)) as E2
    by (unfold A; ring).
  assert ((y - y * (1 # 9007199254740992)) * D == A - A * (1 # 9007199254740992)) as E3
    by (unfold A; ring).
  assert ((y + y * (1 # 9007199254740992)) * D == A + A * (1 # 9007199254740992)) as E4
    by (unfold A; ring).
  rewrite E1 in Ha1. rewrite E2 in Ha2. rewrite E3 in Hb1. rewrite E4 in Hb2.
  rewrite Hy in Ha1, Ha2.
  split_and!; lra.
Qed.

Lemma Qtrunc_floor (q : Q) : 0 <= q → Qtrunc q = Qfloor q.
Proof.
  destruct q as [n d]. unfold Qle, Qtrunc, Qfloor; simpl. intros H.
  apply Z.quot_div_nonneg; lia.
Qed.

(** A count times the factor is a finite float. *)
Lemma rescale_fin (ratio : Q) (x : Z) :
  1 # 18446744073709551616 <= ratio → ratio <= 2251799813685248 →
  (0 <= x < 2 ^ 63)%Z →
  ∃ q, Metrics.rescale (Fin ratio) x = Fin q.
Proof.
  intros Hr1 Hr2 [Hx1 Hx2]. unfold Metrics.rescale.
  destruct (decide (x = 0%Z)) as [->|Hx0].
  - exists 0. vm_compute. reflexivity.
  - assert (1 <= inject_Z x) as HX1
      by (change 1 with (inject_Z 1); rewrite <- Zle_Qle; lia).
    assert (inject_Z x < 9223372036854775808) as HX2
      by (change 9223372036854775808 with (inject_Z (2 ^ 63)); rewrite <- Zlt_Qlt; lia).
    destruct (round64_moderate (inject_Z x)) as (-> & H1 & H2); [lra | lra |].
    set (fx := Qred (round64_pos (inject_Z x))) in *.
    change (f64_mul (Fin fx) (Fin ratio)) with (round64 (fx * ratio)).
    assert ((1 # 2) * (1 # 18446744073709551616) <= fx * ratio) as Hp1
      by (apply Qmult_le_compat_nonneg; split; lra).
    assert (fx * ratio <= 18446744073709551616 * 2251799813685248) as Hp2
      by (apply Qmult_le_compat_nonneg; split; lra).
    destruct (round64_moderate (fx * ratio)) as (-> & _); [lra | lra |].
    by eexists.
Qed.

Lemma ratio_scenario :
  Metrics.ratio_of 700000 1000000 = Ok (Fin (3152519739159347 # 4503599627370496)).
Proof. vm_compute. reflexivity. Qed.

(** The scenario of the specification: the float nearest to
    700000/1000000 times a count, cast to an integer, is the quotient
    [7 x ÷ 10] or one below it. *)
Lemma rescale_scenario (x : Z) :
  (0 <= x < 2 ^ 40)%Z →
  ∃ q, Metrics.rescale (Fin (3152519739159347 # 4503599627370496)) x = Fin q ∧
       (Z.quot (7 * x) 10 - 1 <= int64_of_float q <= Z.quot (7 * x) 10)%Z.
Proof.
  intros [Hx1 Hx2]. unfold Metrics.rescale.
  destruct (decide (x = 0%Z)) as [->|Hx0].
  - exists 0. split; [vm_compute; reflexivity | vm_compute; split; discriminate].
  - rewrite round64_Z by lia.
    assert (1 <= inject_Z x) as HX1
      by (change 1 with (inject_Z 1); rewrite <- Zle_Qle; lia).
    assert (inject_Z x < 1099511627776) as HX2
      by (change 1099511627776 with (inject_Z (2 ^ 40)); rewrite <- Zlt_Qlt; lia).
    set (t := 3152519739159347 # 4503599627370496).
    change (f64_mul (Fin (inject_Z x)) (Fin t)) with (round64 (inject_Z x * t)).
    destruct (round64_moderate (inject_Z x * t)) as (-> & H1 & H2);
      [unfold t; lra | unfold t; lra |].
    set (q := Qred (round64_pos (inject_Z x * t))) in *.
    exists q. split; [done|].
    assert (0 <= q) as Hq by (unfold t in *; lra).
    pose proof (Qfloor_le q) as Hf1. pose proof (Qlt_floor q) as Hf2.
    rewrite inject_Z_plus in Hf2. change (inject_Z 1) with 1 in Hf2.
    assert (10 * inject_Z (Qfloor q) < 7 * inject_Z x + 1) as Hup
      by (unfold t in *; lra).
    assert (7 * inject_Z x < 10 * inject_Z (Qfloor q) + 11) as Hlo
      by (unfold t in *; lra).
    change 10 with (inject_Z 10) in Hup, Hlo. change 7 with (inject_Z 7) in Hup, Hlo.
    change 1 with (inject_Z 1) in Hup. change 11 with (inject_Z 11) in Hlo.
    rewrite <- !inject_Z_mult, <- inject_Z_plus, <- Zlt_Qlt in Hup, Hlo.
    unfold int64_of_float. rewrite Qtrunc_floor by done.
    set (F := Qfloor q) in *.
    assert ((- 2 ^ 63 <=? F)%Z && (F <? 2 ^ 63)%Z = true) as ->.
    { apply andb_true_intro. split; [apply Z.leb_le | apply Z.ltb_lt]; lia. }
    rewrite Z.quot_div_nonneg by lia.
    Z.to_euclidean_division_equations. lia.
Qed.

(** The quotient shown in the message is a finite float. *)
Lemma int_truediv_fin (a b : Z) :
  (0 < a < 2 ^ 113)%Z → (0 < b < 2 ^ 63)%Z →
  ∃ q, int_truediv a b = Ok (Fin q).
Proof.
  intros [Ha1 Ha2] [Hb1 Hb2]. unfold int_truediv.
  destruct (Z.eqb_spec b 0) as [->|_]; [lia|].
  assert (1 <= inject_Z a) as HA1 by (change 1 with (inject_Z 1); rewrite <- Zle_Qle; lia).
  assert (inject_Z a < 10384593717069655257060992658440192) as HA2
    by (change 10384593717069655257060992658440192 with (inject_Z (2 ^ 113)); rewrite <- Zlt_Qlt; lia).
  assert (1 <= inject_Z b) as HB1 by (change 1 with (inject_Z 1); rewrite <- Zle_Qle; lia).
  assert (inject_Z b < 9223372036854775808) as HB2
    by (change 9223372036854775808 with (inject_Z (2 ^ 63)); rewrite <- Zlt_Qlt; lia).
  assert (1 # 9223372036854775808 <= inject_Z a / inject_Z b) as H1
    by (apply Qle_shift_div_l; lra).
  assert (inject_Z a / inject_Z b <= 10384593717069655257060992658440192) as H2
    by (apply Qle_shift_div_r; lra).
  destruct (round64_moderate (inject_Z a / inject_Z b)) as (-> & _); [lra | lra |].
  by eexists.
Qed.

(** The lower value is taken: 90 times the factor is the float just below
    63. *)
Lemma rescale_scenario_90 :
  cast_int64 (Metrics.rescale (Fin (3152519739159347 # 4503599627370496)) 90) = 62%Z.
Proof. vm_compute. reflexivity. Qed.

End Rounding.

(** C4: for a ticker that is not delisted and has no override, with a
    reported history of counts in the range of int64 whose latest count is
    [latest], a current figure [c] below [2^50] from the feed and a positive
    denominator ([implied], or [latest] without an implied figure): the
    correction fires exactly when [latest] exceeds [c] by more than 20%;
    when it fires every point [x] of the history becomes the float product
    of [x] and the factor [c / denom], cast to an integer, where the factor
    is the quotient up to the two roundings of its computation; otherwise
    the history is kept.  With latest 1,000,000, current 700,000 and no
    implied figure, it fires, the latest point becomes 700,000, and every
    point [x] below [2^40] becomes [7 x ÷ 10] or, by the rounding of the
    product, one less. *)
Theorem multi_class_correction
    (src : sources) (delisted : list string) (hist : option (gmap string series))
    (tk : string) (c : Z) (latest : date * Z) :
  let so := groupby_last (yf_shares_full src tk) in
  let implied := yf_impliedSharesOutstanding src tk in
  let denom := match implied with Some i => i | None => latest.2 end in
  tk ∉ delisted →
  hist ≫= (.!! tk) = None →
  yf_sharesOutstanding src tk = Some c →
  last so = Some latest →
  0 < c < 2 ^ 50 →
  0 < denom < 2 ^ 63 →
  (∀ d x, (d, x) ∈ so → 0 ≤ x < 2 ^ 63) →
  ∃ so' fired,
    Metrics.correct_share_classes (Some c) implied so = Ok (so', fired) ∧
    Metrics.raw_shares src delisted hist tk = Ok (map (prod_map id fl_of_Z) so') ∧
    (fired = true ↔ 12 * c < 10 * latest.2) ∧
    (fired = true →
       ∃ ratio,
         Metrics.ratio_of c denom = Ok (Fin ratio) ∧
         (inject_Z c * (1 - (1 # 2251799813685248)) <= ratio * inject_Z denom)%Q ∧
         (ratio * inject_Z denom <= inject_Z c * (1 + (1 # 2251799813685248)))%Q ∧
         so' = map (prod_map id (λ x, cast_int64 (Metrics.rescale (Fin ratio) x))) so) ∧
    (fired = false → so' = so) ∧
    (c = 700000 → latest.2 = 1000000 → implied = None →
       fired = true ∧
       last so' = Some (latest.1, 700000) ∧
       ∀ i d x, so !! i = Some (d, x) → x < 2 ^ 40 →
         ∃ y, so' !! i = Some (d, y) ∧
              Z.quot (7 * x) 10 - 1 ≤ y ≤ Z.quot (7 * x) 10).
Proof.
  intros so implied denom Hnd Hhist Hc Hlast Hcr Hden Hvals.
  unfold Metrics.raw_shares, Metrics.feed_shares.
  rewrite bool_decide_false by done. rewrite Hhist, Hc.
  fold so implied. unfold Metrics.correct_share_classes.
  destruct (times_1_2_spec c latest.2 Hcr) as (x & -> & Hx).
  assert (0 ≤ latest.2 < 2 ^ 63) as Hlat.
  { destruct latest as [d l]. apply (Hvals d l). by apply last_Some_elem_of. }
  rewrite Hlast. simpl.
  destruct (Qlt_bool x (inject_Z latest.2)) eqn:Hex.
  - apply Qlt_bool_iff, Hx in Hex. fold denom.
    destruct (int_truediv_fin (latest.2 * c) denom) as (q0 & ->); [nia | done |].
    destruct (ratio_of_spec c denom Hcr Hden) as (ratio & Hratio & Hacc1 & Hacc2 & Hr1 & Hr2).
    rewrite Hratio. simpl. unfold astype_int64.
    assert (forallb (λ r : Z * fl, is_fin r.2)
              (map (prod_map id (Metrics.rescale (Fin ratio))) so) = true) as ->.
    { apply forallb_forall. intros [d y] Hin. apply in_map_iff in Hin as ([d' x'] & Heq & Hin).
      apply list_elem_of_In in Hin. injection Heq as <- <-.
      destruct (rescale_fin ratio x' Hr1 Hr2 (Hvals _ _ Hin)) as [q Hq].
      simpl. by rewrite Hq. }
    simpl. rewrite map_map.
    eexists _, true. split_and!; try done.
    + exists ratio. split_and!; try done.
    + intros -> Hl Hi. split; [done|].
      assert (denom = 1000000) as Hd by (unfold denom; by rewrite Hi, Hl).
      rewrite Hd, ratio_scenario in Hratio. injection Hratio as <-.
      split.
      * change (map ?f so) with (f <$> so). rewrite fmap_last, Hlast.
        destruct latest as [d l]; simpl in *. subst l. vm_compute. reflexivity.
      * intros i d x0 Hi0 Hx0.
        assert (0 ≤ x0 < 2 ^ 63) as Hr0.
        { apply (Hvals d). apply list_elem_of_lookup. by exists i. }
        destruct (rescale_scenario x0) as (q & Hq & Hb); [lia|].
        eexists. split.
        -- change (map ?f so) with (f <$> so). rewrite list_lookup_fmap, Hi0. reflexivity.
        -- unfold prod_map; simpl. rewrite Hq. exact Hb.
  - eexists _, false. split_and!; try done.
    + split; [done|]. intros Hlt. apply Hx, Qlt_bool_iff in Hlt. congruence.
    + intros -> Hl _. exfalso.
      assert (12 * 700000 < 10 * latest.2) as Hlt by lia.
      apply Hx, Qlt_bool_iff in Hlt. congruence.
Qed.

Lemma multi_class_correction_witness :
  ∃ so',
    Metrics.raw_shares Example.src ["B"%string] Example.hist "A"
    = Ok (map (prod_map id fl_of_Z) so') ∧
    last so' = Some (3, 700000).
Proof.
  destruct (multi_class_correction Example.src ["B"%string] Example.hist "A"
              700000 (3, 1000000))
    as (so' & fired & _ & Hraw & _ & _ & _ & Hsc).
  - apply (bool_decide_unpack _). vm_compute. exact I.
  - vm_compute. reflexivity.
  - reflexivity.
  - vm_compute. reflexivity.
  - lia.
  - vm_compute. split; reflexivity.
  - intros d x Hin.
    assert ((d, x) ∈ [(1, 900000); (3, 1000000)]) as Hin' by exact Hin.
    apply elem_of_cons in Hin' as [[= -> ->]|Hin']; [lia|].
    apply list_elem_of_singleton in Hin' as [= -> ->]. lia.
  - exists so'. split; [exact Hraw|]. apply Hsc; reflexivity.
Defined.

(** ** The constructor, step by step *)

Section Constructor.
Import Metrics.

Lemma for_each_raises {A S} (body : S → A → result S) l a s :
  a ∈ l → (∀ s, is_raised (body s a)) → is_raised (for_each body l s).
Proof.
  intros Hin Hbody. revert s. induction l as [|b l IH]; intros s.
  - by apply elem_of_nil in Hin.
  - simpl. apply elem_of_cons in Hin as [<-|Hin].
    + by apply bind_Err_l.
    + destruct (body s b) as [s'|e]; simpl; [by apply IH | by eexists].
Qed.

(** A property set up by the step for [a] and kept by every step holds
    after a loop that goes through [a]. *)
Lemma for_each_establish {A S} (P : S → Prop) (body : S → A → result S) l a s s' :
  a ∈ l →
  (∀ s s', body s a = Ok s' → P s') →
  (∀ s b s', P s → body s b = Ok s' → P s') →
  for_each body l s = Ok s' → P s'.
Proof.
  intros Hin Hset Hkeep. revert s. induction l as [|b l IH]; intros s H.
  - by apply elem_of_nil in Hin.
  - simpl in H. bind_inv H. apply elem_of_cons in Hin as [<-|Hin].
    + eapply (for_each_invariant P); [|by eapply Hset|done].
      intros ? ? ? _. apply Hkeep.
    + by eapply IH.
Qed.

(** What a successful construction went through. *)
Lemma init_Ok src tickers stock_index hist m :
  init src tickers stock_index hist = Ok m →
  let rows := yf_index src in
  let keys := dict_keys tickers in
  let f0 := bfill_frame rows (yf_download src) in
  let dy := fold_left (record_yield src) (current_components tickers) [] in
  let delisted := delisted_tickers rows f0 keys in
  ∃ f so s lst,
    for_each (reconcile src tickers rows) delisted f0 = Ok f ∧
    for_each (resolve_shares src rows delisted hist) keys [] = Ok so ∧
    for_each (aggregate tickers rows f dy so) keys (empty_capitalization, Fin 0) = Ok s ∧
    last rows = Some lst ∧
    ticker_symbols m = tickers ∧ index m = rows ∧ data m = f ∧
    dividend_yield m = dy ∧ shares_outstanding m = so ∧
    capitalization m = s.1 ∧
    forward_dividend_yield m = fdiv s.2 (s.1 CAPITALIZATION lst) ∧
    stock_index_data m =
      match stock_index with
      | Some ix => Some (Some (yf_index_close src ix))
      | None => None
      end.
Proof.
  intros H rows keys f0 dy delisted. unfold init in H.
  bind_inv H. bind_inv H. bind_inv H.
  destruct (last (yf_index src)) as [lst|] eqn:Hlast; simpl in H; [|done].
  injection H as <-. exists a, a0, a1, lst. by split_and!.
Qed.

(** The example market is accepted by the constructor. *)
Lemma example_init_no_error stock_index e :
  init Example.src Example.tickers stock_index Example.hist ≠ Err e.
Proof.
  intros H.
  assert (match init Example.src Example.tickers stock_index Example.hist with
          | Ok _ => true | Err _ => false end = true) as Hok
    by (destruct stock_index; vm_compute; reflexivity).
  rewrite H in Hok. discriminate Hok.
Qed.

End Constructor.

(** ** Volatility without a benchmark index *)

(** C7 does not hold of the code: after a construction without an index
    ticker the attribute [stock_index_data] does not exist, and reading it in
    [get_annual_volatility] raises for every alpha and frequency instead of
    returning the sentinel. *)
Theorem annual_volatility_without_index_raises
    (ewm_volatility : Q → series → series) (src : sources)
    (tickers : pydict window) (hist : option (gmap string series))
    (m : Metrics.t) (alpha : Q) (freq : Metrics.frequency) :
  Metrics.init src tickers None hist = Ok m →
  Metrics.get_annual_volatility ewm_volatility m alpha freq
  = Err (AttributeError "stock_index_data").
Proof.
  intros H. apply init_Ok in H as (f & so & s & lst & _ & _ & _ & _ & H).
  destruct H as (_ & _ & _ & _ & _ & _ & _ & Hsi).
  unfold Metrics.get_annual_volatility. by rewrite Hsi.
Qed.

Lemma annual_volatility_without_index_raises_witness :
  ∃ m, Metrics.init Example.src Example.tickers None Example.hist = Ok m ∧
       Metrics.get_annual_volatility (λ _ s, s) m (5547 # 100000) (λ d, d / 7)
       = Err (AttributeError "stock_index_data").
Proof.
  destruct (Metrics.init Example.src Example.tickers None Example.hist) as [m|e] eqn:H.
  - exists m. split; [reflexivity|].
    exact (annual_volatility_without_index_raises _ _ _ _ m _ _ H).
  - vm_compute in H. discriminate H.
Defined.

(** ** Capitalization of a subset *)

(** C8 does not hold of the code: with a list of tickers,
    [get_capitalization] asks the resampled series for an attribute [ret]
    that a Series does not have, so that the query raises for every
    frequency and every list and returns no series. *)
Theorem subset_capitalization_query_raises
    (m : Metrics.t) (freq : Metrics.frequency) (tickers : list string) :
  is_raised (Metrics.get_capitalization m freq (Some tickers)) ∧
  ∀ ret, Metrics.subset_capitalization m tickers = Ok ret →
         Metrics.get_capitalization m freq (Some tickers) = Err (AttributeError "ret").
Proof.
  unfold Metrics.get_capitalization.
  destruct (Metrics.subset_capitalization m tickers) as [ret|e]; simpl.
  - split; [by eexists | done].
  - split; [by eexists | done].
Qed.

(** ** Delisted tickers and their shares outstanding *)

Lemma first_valid_all_nan (col : date → fl) (rows : list date) :
  Forall (λ d, col d = NaN) rows → first_valid col rows = NaN.
Proof.
  induction 1 as [|d rows Hd _ IH]; simpl; [done|]. by rewrite Hd.
Qed.

Lemma bfill_all_nan (col : date → fl) (rows : list date) (d : date) :
  Forall (λ d, col d = NaN) rows → bfill rows col d = NaN.
Proof.
  intros H. induction H as [|d' rows Hd Hrows IH]; simpl; [done|].
  destruct (d' =? d); [|done]. by rewrite Hd, first_valid_all_nan.
Qed.

Lemma elem_of_List_filter {A} (p : A → bool) (l : list A) (x : A) :
  x ∈ List.filter p l ↔ x ∈ l ∧ p x = true.
Proof. rewrite !list_elem_of_In. apply filter_In. Qed.

(** A ticker for which the feed has no close at all is among the delisted
    ones. *)
Lemma no_observation_delisted (src : sources) (tickers : pydict window) (tk : string) :
  tk ∈ dict_keys tickers →
  Forall (λ d, yf_download src Close tk d = NaN) (yf_index src) →
  tk ∈ Metrics.delisted_tickers (yf_index src)
         (Metrics.bfill_frame (yf_index src) (yf_download src)) (dict_keys tickers).
Proof.
  intros Hk Hnan. apply elem_of_List_filter. split; [done|].
  apply forallb_forall. intros d _. unfold Metrics.bfill_frame.
  by rewrite bfill_all_nan.
Qed.

(** C5: a ticker of the market whose primary feed returned no observation
    is delisted; without an entry in the override map the construction
    raises and builds no object; with an entry, its shares are the override
    whatever the feed would report. *)
Theorem delisted_shares_resolution
    (src : sources) (tickers : pydict window) (stock_index : option string)
    (hist : option (gmap string series)) (tk : string) :
  tk ∈ dict_keys tickers →
  Forall (λ d, yf_download src Close tk d = NaN) (yf_index src) →
  let delisted :=
    Metrics.delisted_tickers (yf_index src)
      (Metrics.bfill_frame (yf_index src) (yf_download src)) (dict_keys tickers) in
  (hist ≫= (.!! tk) = None →
     is_raised (Metrics.init src tickers stock_index hist) ∧
     ∀ m, Metrics.init src tickers stock_index hist ≠ Ok m) ∧
  (∀ s, hist ≫= (.!! tk) = Some s →
     ∀ feed : sources, Metrics.raw_shares feed delisted hist tk = Ok s).
Proof.
  intros Hk Hnan delisted.
  pose proof (no_observation_delisted src tickers tk Hk Hnan) as Hdel.
  fold delisted in Hdel. split.
  - intros Hnone.
    assert (is_raised (Metrics.init src tickers stock_index hist)) as Hr.
    { unfold Metrics.init. fold delisted.
      destruct (for_each (Metrics.reconcile _ _ _) delisted _) as [f|e]; simpl;
        [|by eexists].
      apply bind_Err_l. apply for_each_raises with (a := tk); [done|].
      intros so. unfold Metrics.resolve_shares, Metrics.raw_shares.
      rewrite bool_decide_true by done. rewrite Hnone. by eexists. }
    split; [done|]. intros m Hm. destruct Hr as [e He]. congruence.
  - intros s Hs feed. unfold Metrics.raw_shares.
    rewrite bool_decide_true by done. by rewrite Hs.
Qed.

Lemma delisted_shares_resolution_witness :
  is_raised (Metrics.init Example.src Example.tickers None None) ∧
  Metrics.raw_shares Example.src
    (Metrics.delisted_tickers (yf_index Example.src)
       (Metrics.bfill_frame (yf_index Example.src) (yf_download Example.src))
       (dict_keys Example.tickers))
    Example.hist "B" = Ok [(1, Fin 20)].
Proof.
  assert ("B"%string ∈ dict_keys Example.tickers) as Hk.
  { apply (bool_decide_unpack _). vm_compute. exact I. }
  assert (Forall (λ d, yf_download Example.src Close "B" d = NaN)
            (yf_index Example.src)) as Hnan.
  { simpl. unfold Example.rows. repeat constructor. }
  split.
  - apply (delisted_shares_resolution Example.src Example.tickers None None "B" Hk Hnan).
    reflexivity.
  - apply (delisted_shares_resolution Example.src Example.tickers None Example.hist "B"
             Hk Hnan).
    vm_compute. reflexivity.
Defined.

(** ** The aggregate capitalization *)

Section Aggregation.
Import Metrics.

Lemma fadd_canonical (x y : fl) : Spec.canonical (fadd x y).
Proof. destruct x, y; simpl; try done. apply Qred_complete, Qred_correct. Qed.

Lemma fadd_zero_r (x : fl) : Spec.canonical x → fadd x (Fin 0) = x.
Proof.
  destruct x as [q| | |]; simpl; try done. intros Hq. f_equal.
  rewrite <- Hq at 2. apply Qred_complete. ring.
Qed.

(** Summands that are zero can be left out of a sum. *)
Lemma fsum_skip_zero {A} (p : A → bool) (g : A → fl) (l : list A) (acc : fl) :
  Spec.canonical acc →
  fold_left fadd (map (λ x, if p x then g x else Fin 0) l) acc
  = fold_left fadd (map g (List.filter p l)) acc.
Proof.
  revert acc; induction l as [|x l IH]; intros acc Hacc; simpl; [done|].
  destruct (p x); simpl.
  - apply IH, fadd_canonical.
  - rewrite fadd_zero_r by done. by apply IH.
Qed.

(** One pass of the loop body, seen from the aggregate column at [d]. *)
Lemma aggregate_capitalization tickers rows f dy so s tk s' (d : date) :
  aggregate tickers rows f dy so s tk = Ok s' →
  tk ≠ CAPITALIZATION →
  ∃ w sh,
    dict_get tickers tk = Some w ∧ dict_get so tk = Some sh ∧
    s'.1 CAPITALIZATION d =
      if in_window w.1 w.2 d
      then fadd (s.1 CAPITALIZATION d) (fmul (f Close tk d) (sh d))
      else s.1 CAPITALIZATION d.
Proof.
  intros H Hne. unfold aggregate, dict_lookup in H.
  destruct (dict_get tickers tk) as [w|] eqn:Hw; simpl in H; [|done].
  destruct (dict_get so tk) as [sh|] eqn:Hsh; simpl in H; [|done].
  exists w, sh. split; [done|]. split; [done|].
  assert (s'.1 = set_in_window
            (add_in_window
               (add_in_window s.1 TURNOVER w (λ d, fmul (f Close tk d) (f Volume tk d)))
               CAPITALIZATION w (λ d, fmul (f Close tk d) (sh d)))
            tk w (λ d, fmul (f Close tk d) (sh d))) as ->.
  { destruct (bool_decide _); [|by injection H as <-].
    destruct (last rows); simpl in H; [|done].
    destruct (dict_get dy tk); simpl in H; [|done]. by injection H as <-. }
  unfold set_in_window, add_in_window.
  destruct (String.eqb_spec CAPITALIZATION tk) as [<-|_]; [done|]. simpl.
  by destruct (in_window w.1 w.2 d).
Qed.

Lemma aggregate_loop_capitalization tickers rows f dy so l s s' (d : date) :
  for_each (aggregate tickers rows f dy so) l s = Ok s' →
  CAPITALIZATION ∉ l →
  s'.1 CAPITALIZATION d =
  fold_left fadd
    (map (λ tk, fmul (f Close tk d)
                  (match dict_get so tk with Some sh => sh d | None => NaN end))
       (List.filter (λ tk, match dict_get tickers tk with
                           | Some w => in_window w.1 w.2 d
                           | None => false
                           end) l))
    (s.1 CAPITALIZATION d).
Proof.
  revert s; induction l as [|tk l IH]; intros s H Hnot; simpl in *.
  - by injection H as <-.
  - bind_inv H. apply not_elem_of_cons in Hnot as [Hne Hnot].
    destruct (aggregate_capitalization _ _ _ _ _ _ _ _ d Ha (not_eq_sym Hne))
      as (w & sh & Hw & Hsh & Hstep).
    rewrite (IH _ H Hnot), Hstep, Hw.
    destruct (in_window w.1 w.2 d); simpl; [by rewrite Hsh | done].
Qed.

End Aggregation.

(** C1: after a successful construction, on every date of the tracked range
    the aggregate capitalization is the sum, over exactly the tickers whose
    membership window contains the date, of close price times resolved
    shares outstanding; a ticker outside its window adds exactly zero.  The
    ticker symbols are assumed to differ from the column name
    ["Capitalization"] of the aggregate. *)
Theorem capitalization_is_sum_over_active
    (src : sources) (tickers : pydict window) (stock_index : option string)
    (hist : option (gmap string series)) (m : Metrics.t) (d : date) :
  Metrics.init src tickers stock_index hist = Ok m →
  Metrics.CAPITALIZATION ∉ dict_keys tickers →
  d ∈ Metrics.index m →
  Metrics.capitalization m Metrics.CAPITALIZATION d = Spec.capitalization m d ∧
  Metrics.capitalization m Metrics.CAPITALIZATION d = Spec.capitalization_all m d.
Proof.
  intros H Hcol _.
  apply init_Ok in H as (f & so & s & lst & _ & _ & Hagg & _ & Ht & _ & Hd & _ & Hso & Hc & _).
  assert (Metrics.capitalization m Metrics.CAPITALIZATION d = Spec.capitalization m d) as Heq.
  { rewrite Hc, (aggregate_loop_capitalization _ _ _ _ _ _ _ _ d Hagg Hcol).
    unfold Spec.capitalization, Spec.fsum, Spec.contribution, Spec.close,
      Spec.shares, Spec.active.
    rewrite Ht, Hd, Hso. reflexivity. }
  split; [done|]. rewrite Heq.
  unfold Spec.capitalization, Spec.capitalization_all, Spec.fsum.
  symmetry. by apply fsum_skip_zero.
Qed.

Lemma capitalization_is_sum_over_active_witness :
  ∃ m, Metrics.init Example.src Example.tickers None Example.hist = Ok m ∧
       Metrics.capitalization m Metrics.CAPITALIZATION 10 = Spec.capitalization m 10 ∧
       Metrics.capitalization m Metrics.CAPITALIZATION 10 = Spec.capitalization_all m 10.
Proof.
  destruct (Metrics.init Example.src Example.tickers None Example.hist) as [m|e] eqn:H.
  - exists m. split; [reflexivity|].
    apply (capitalization_is_sum_over_active _ _ _ _ m 10 H).
    + apply (bool_decide_unpack _). vm_compute. exact I.
    + pose proof (init_Ok _ _ _ _ _ H) as (f & so & s & lst & _ & _ & _ & _ & _ & Hi & _).
      rewrite Hi. apply (bool_decide_unpack _). vm_compute. exact I.
  - destruct (example_init_no_error _ _ H).
Defined.

(** ** The panel after reconciliation *)

Section Panel.
Import Metrics.

Lemma reconcile_other src tickers rows f tk' f' tk fld d :
  reconcile src tickers rows f tk' = Ok f' → tk ≠ tk' → f' fld tk d = f fld tk d.
Proof.
  intros H Hne. unfold reconcile in H.
  bind_inv H. bind_inv H. bind_inv H.
  destruct (negb _); [done|]. bind_inv H. bind_inv H.
  assert (String.eqb tk tk' = false) as Heq by by apply String.eqb_neq.
  destruct (a3.2) as [ed|]; [|done].
  destruct (a2.1 <? ed); injection H as <-; unfold set_rows; by rewrite Heq.
Qed.

Lemma reconcile_loop_other src tickers rows l f f' tk fld d :
  for_each (reconcile src tickers rows) l f = Ok f' → tk ∉ l →
  f' fld tk d = f fld tk d.
Proof.
  intros H Hnot.
  apply (for_each_invariant (λ g, g fld tk d = f fld tk d) _ _ _ _) in H; [done| |done].
  intros g tk' g' Hin Hg Hstep. rewrite <- Hg.
  eapply reconcile_other; [done|]. intros ->. done.
Qed.

(** The columns of a ticker that is not delisted are the back-filled feed. *)
Lemma init_data_bfill src tickers stock_index hist m tk fld d :
  init src tickers stock_index hist = Ok m →
  tk ∉ delisted_tickers (yf_index src) (bfill_frame (yf_index src) (yf_download src))
         (dict_keys tickers) →
  data m fld tk d = bfill (yf_index src) (yf_download src fld tk) d.
Proof.
  intros H Hnot.
  apply init_Ok in H as (f & so & s & lst & Hrec & _ & _ & _ & _ & _ & Hd & _).
  rewrite Hd. by rewrite (reconcile_loop_other _ _ _ _ _ _ tk fld d Hrec Hnot).
Qed.

Lemma isna_false (x : fl) : x ≠ NaN → isna x = false.
Proof. by destruct x. Qed.

Lemma first_valid_skip (col : date → fl) (pre : list date) d0 post :
  (∀ d, d ∈ pre → col d = NaN) → col d0 ≠ NaN →
  first_valid col (pre ++ d0 :: post) = col d0.
Proof.
  intros Hpre Hd0. induction pre as [|p pre IH]; simpl.
  - by rewrite isna_false.
  - rewrite (Hpre p) by left. simpl. apply IH. intros d Hd. apply Hpre. by right.
Qed.

(** Back-filling in front of the first value. *)
Lemma bfill_before_first (col : date → fl) (pre : list date) d0 post d :
  (∀ d, d ∈ pre → col d = NaN) → col d0 ≠ NaN →
  d ∈ pre ++ [d0] →
  bfill (pre ++ d0 :: post) col d = col d0.
Proof.
  intros Hpre Hd0. induction pre as [|p pre IH]; simpl; intros Hd.
  - apply list_elem_of_singleton in Hd as ->. rewrite Z.eqb_refl. by rewrite isna_false.
  - destruct (Z.eqb_spec p d) as [->|Hne].
    + rewrite (Hpre d) by left. simpl. apply first_valid_skip; [|done].
      intros d' Hd'. apply Hpre. by right.
    + apply IH.
      * intros d' Hd'. apply Hpre. by right.
      * apply elem_of_cons in Hd as [->|Hd]; done.
Qed.

End Panel.

(** C2, as amended: for a ticker whose first observation is later than the
    first date of the panel, every date of the panel before that observation
    holds the first available close price, and its volume is the first
    available volume: the volume column is filled backwards like the close
    column and is not set to zero. *)
Theorem backfill_before_first_observation
    (src : sources) (tickers : pydict window) (stock_index : option string)
    (hist : option (gmap string series)) (m : Metrics.t) (tk : string)
    (pre : list date) (d0 : date) (post : list date) :
  Metrics.init src tickers stock_index hist = Ok m →
  yf_index src = pre ++ d0 :: post →
  (∀ d, d ∈ pre → yf_download src Close tk d = NaN ∧ yf_download src Volume tk d = NaN) →
  yf_download src Close tk d0 ≠ NaN →
  yf_download src Volume tk d0 ≠ NaN →
  ∀ d, d ∈ pre →
    Metrics.data m Close tk d = yf_download src Close tk d0 ∧
    Metrics.data m Volume tk d = yf_download src Volume tk d0.
Proof.
  intros H Hrows Hpre Hc Hv d Hd.
  assert (tk ∉ Metrics.delisted_tickers (yf_index src)
            (Metrics.bfill_frame (yf_index src) (yf_download src)) (dict_keys tickers))
    as Hnot.
  { intros [_ Hall]%elem_of_List_filter.
    rewrite forallb_forall in Hall. specialize (Hall d0).
    unfold Metrics.bfill_frame in Hall. rewrite Hrows in Hall.
    rewrite (bfill_before_first _ pre d0 post d0) in Hall.
    - rewrite isna_false in Hall by done.
      enough (false = true) by done. apply Hall.
      apply list_elem_of_In, elem_of_app. right. left.
    - intros d' Hd'. by apply Hpre.
    - done.
    - apply elem_of_app. right. left. }
  rewrite !(init_data_bfill _ _ _ _ _ _ _ _ H Hnot), Hrows.
  assert (d ∈ pre ++ [d0]) as Hd' by (apply elem_of_app; by left).
  split; apply bfill_before_first; try done; intros d' Hin; by apply Hpre.
Qed.

Lemma backfill_before_first_observation_witness :
  ∃ m, Metrics.init Example.src Example.tickers None Example.hist = Ok m ∧
       Metrics.data m Close "C" 1 = Fin 10 ∧ Metrics.data m Volume "C" 1 = Fin 500.
Proof.
  destruct (Metrics.init Example.src Example.tickers None Example.hist) as [m|e] eqn:H.
  - exists m. split; [reflexivity|].
    apply (backfill_before_first_observation _ _ _ _ m "C" [1; 2] 3 [4; 5; 8; 9; 10] H).
    + reflexivity.
    + intros d Hd.
      apply elem_of_cons in Hd as [->|Hd]; [split; reflexivity|].
      apply list_elem_of_singleton in Hd as ->. split; reflexivity.
    + discriminate.
    + discriminate.
    + left.
  - destruct (example_init_no_error _ _ H).
Defined.

(** C2, as stated, fails: in the example market the first observation of C
    is on day 3, and on day 1 the panel holds the first volume, 500, not
    zero. *)
Lemma backfill_volume_counterexample :
  ∃ m, Metrics.init Example.src Example.tickers None Example.hist = Ok m ∧
       yf_download Example.src Close "C" 1 = NaN ∧
       yf_download Example.src Close "C" 2 = NaN ∧
       yf_download Example.src Close "C" 3 = Fin 10 ∧
       ¬ (Metrics.data m Close "C" 1 = Fin 10 ∧ Metrics.data m Volume "C" 1 = Fin 0).
Proof.
  destruct (Metrics.init Example.src Example.tickers None Example.hist) as [m|e] eqn:H;
    [|destruct (example_init_no_error _ _ H)].
  exists m. split_and!; try reflexivity.
  intros [_ Hv].
  rewrite (init_data_bfill _ _ _ _ _ "C" Volume 1 H) in Hv.
  - vm_compute in Hv. discriminate Hv.
  - intros Hin. apply (bool_decide_pack _) in Hin. vm_compute in Hin. exact Hin.
Qed.

(** * Further properties of the code *)

(** ** The replay: which rows it reads *)

Section ReplayMore.
Import USStockMarketMetrics.

Lemma replay_processed s0 rows s :
  replay (Some s0) rows s = replay (Some s0) (processed s0 rows) s.
Proof.
  revert s; induction rows as [|row rows IH]; intros s; simpl; [done|].
  destruct (ch_date row <? s0) eqn:Hd; simpl; [done|]. rewrite Hd.
  destruct (replay_row (Some s0) s row); simpl; [apply IH | done].
Qed.

Lemma processed_dates s0 rows row :
  row ∈ processed s0 rows → (ch_date row <? s0) = false.
Proof.
  induction rows as [|r rows IH]; simpl; [by intros ?%elem_of_nil|].
  destruct (ch_date r <? s0) eqn:Hd; [by intros ?%elem_of_nil|].
  intros [->|?]%elem_of_cons; auto.
Qed.

Lemma replay_app s0 l1 l2 s :
  (∀ row, row ∈ l1 → (ch_date row <? s0) = false) →
  replay (Some s0) (l1 ++ l2) s = (replay (Some s0) l1 s ≫= replay (Some s0) l2).
Proof.
  revert s; induction l1 as [|row l1 IH]; intros s Hd; simpl; [done|].
  rewrite (Hd row) by left.
  destruct (replay_row (Some s0) s row); simpl; [|done].
  apply IH. intros r Hr. apply Hd. by right.
Qed.

Lemma remove_tickers_snd start ts l s :
  (fold_left (remove_ticker start ts) l s).2 = s.2 ++ l.
Proof.
  revert s; induction l as [|x l IH]; intros s; simpl; [by rewrite app_nil_r|].
  rewrite IH. simpl. by rewrite <- app_assoc.
Qed.

Lemma replay_row_snd start s row s' :
  replay_row start s row = Ok s' → s'.2 = s.2 ++ ch_removed row.
Proof.
  unfold replay_row. intros H. bind_inv H. injection H as <-.
  by rewrite remove_tickers_snd.
Qed.

(** [all_components] only grows. *)
Lemma replay_snd s0 rows s s' :
  replay (Some s0) rows s = Ok s' → ∃ rest, s'.2 = s.2 ++ rest.
Proof.
  revert s; induction rows as [|row rows IH]; intros s H; simpl in H.
  - injection H as <-. exists []. by rewrite app_nil_r.
  - destruct (ch_date row <? s0).
    + injection H as <-. exists []. by rewrite app_nil_r.
    + bind_inv H. apply replay_row_snd in Ha. apply IH in H as [rest Hrest].
      exists (ch_removed row ++ rest). by rewrite Hrest, Ha, <- app_assoc.
Qed.

End ReplayMore.

(** ** The replay: the windows it builds *)

Section ReplayWindows.
Import USStockMarketMetrics.

Variable comps : list string.

Lemma add_ticker_end ts ret t ret' k :
  add_ticker ts ret t = Ok ret' →
  snd <$> dict_get ret' k = snd <$> dict_get ret k.
Proof.
  unfold add_ticker. destruct (dict_get ret t) as [[st ed]|] eqn:Hg; [|done].
  intros [= <-]. rewrite dict_get_set.
  destruct (String.eqb_spec t k) as [<-|]; [by rewrite Hg | done].
Qed.

Lemma add_tickers_end ts l ret ret' k :
  for_each (add_ticker ts) l ret = Ok ret' →
  snd <$> dict_get ret' k = snd <$> dict_get ret k.
Proof.
  apply (for_each_invariant (λ r, snd <$> dict_get r k = snd <$> dict_get ret k));
    [|done].
  intros r a r' _ Hr Hstep. rewrite <- Hr. by eapply add_ticker_end.
Qed.

Lemma add_tickers_windows ts l s ret' :
  for_each (add_ticker ts) l s.1 = Ok ret' → windows_inv comps s → windows_inv comps (ret', s.2).
Proof.
  intros H (Hk & Hrem & He). split_and!; simpl.
  - by rewrite (add_tickers_keys _ _ _ _ H).
  - done.
  - intros k w Hw. pose proof (add_tickers_end _ _ _ _ k H) as Hend.
    rewrite Hw in Hend. simpl in Hend.
    destruct (dict_get s.1 k) as [w0|] eqn:Hw0; [|done].
    injection Hend as Hend. rewrite Hend. by apply He.
Qed.

Lemma remove_tickers_windows start ts l s :
  NoDup (s.2 ++ l) → windows_inv comps s →
  windows_inv comps (fold_left (remove_ticker start ts) l s).
Proof.
  revert s; induction l as [|t l IH]; intros s Hnd Hs; simpl; [done|].
  apply IH; simpl.
  - by rewrite <- app_assoc.
  - destruct Hs as (Hk & [rem Hrem] & He).
    apply NoDup_app in Hnd as (_ & Hdisj & Hl).
    assert (t ∉ s.2) as Hnew by (intros Hin; apply (Hdisj t Hin); left).
    split_and!; simpl.
    + rewrite dict_keys_set, bool_decide_false; [by rewrite Hk | by rewrite Hk].
    + exists (rem ++ [t]). by rewrite Hrem, app_assoc.
    + intros k w. rewrite dict_get_set.
      destruct (String.eqb_spec t k) as [<-|_]; [|by apply He].
      intros [= <-]. simpl. split; [done|].
      intros Hin. exfalso. apply Hnew. rewrite Hrem. apply elem_of_app. by left.
Qed.

Lemma replay_windows s0 rows s s' :
  replay (Some s0) rows s = Ok s' → NoDup s'.2 → windows_inv comps s → windows_inv comps s'.
Proof.
  revert s; induction rows as [|row rows IH]; intros s H Hnd Hs; simpl in H.
  - by injection H as <-.
  - destruct (ch_date row <? s0); [by injection H as <-|].
    bind_inv H. apply (IH _ H Hnd).
    pose proof (replay_snd _ _ _ _ H) as [rest Hrest].
    pose proof (replay_row_snd _ _ _ _ Ha) as Hsnd.
    unfold replay_row in Ha. bind_inv Ha. injection Ha as <-.
    apply remove_tickers_windows; simpl.
    + rewrite Hrest, Hsnd in Hnd. by apply NoDup_app in Hnd as (? & _).
    + eapply add_tickers_windows; eassumption.
Qed.

Lemma initial_keys (w : window) (l : list string) (d : pydict window) :
  NoDup (dict_keys d ++ l) →
  dict_keys (fold_left (λ d t, dict_set d t w) l d) = dict_keys d ++ l.
Proof.
  revert d; induction l as [|t l IH]; intros d Hnd; simpl; [by rewrite app_nil_r|].
  assert (dict_keys (dict_set d t w) = dict_keys d ++ [t]) as Hk.
  { rewrite dict_keys_set, bool_decide_false; [done|].
    apply NoDup_app in Hnd as (_ & Hdisj & _). intros Hin. apply (Hdisj t Hin). left. }
  rewrite IH; rewrite Hk, <- app_assoc; done.
Qed.

Lemma initial_get (w : window) (l : list string) (d : pydict window) k w' :
  dict_get (fold_left (λ d t, dict_set d t w) l d) k = Some w' →
  (k ∈ l ∧ w' = w) ∨ dict_get d k = Some w'.
Proof.
  revert d; induction l as [|t l IH]; intros d H; simpl in H; [by right|].
  apply IH in H as [[Hin ->]|H].
  - left. split; [by right | done].
  - rewrite dict_get_set in H. destruct (String.eqb_spec t k) as [<-|_].
    + injection H as <-. left. split; [left | done].
    + by right.
Qed.

Lemma dict_get_elem {V} (d : pydict V) k v :
  NoDup (dict_keys d) → (k, v) ∈ d → dict_get d k = Some v.
Proof.
  induction d as [|[k' v'] d IH]; simpl; intros Hnd Hin; [by apply elem_of_nil in Hin|].
  apply NoDup_cons in Hnd as [Hk' Hnd].
  apply elem_of_cons in Hin as [[= <- <-]|Hin].
  - by rewrite String.eqb_refl.
  - destruct (String.eqb_spec k' k) as [->|_]; [|by apply IH].
    exfalso. apply Hk'. apply list_elem_of_fmap. by exists (k, v).
Qed.

Lemma current_components_filter (ret : pydict window) :
  (∀ k w, (k, w) ∈ ret → (w.2 = None ↔ k ∈ comps)) →
  Metrics.current_components ret
  = List.filter (λ k, bool_decide (k ∈ comps)) (dict_keys ret).
Proof.
  unfold Metrics.current_components, dict_keys.
  induction ret as [|[k w] ret IH]; intros He; simpl; [done|].
  assert (bool_decide (w.2 = None) = bool_decide (k ∈ comps)) as ->.
  { apply bool_decide_ext. apply (He k w). left. }
  assert (∀ k' w', (k', w') ∈ ret → (w'.2 = None ↔ k' ∈ comps)) as He'
    by (intros k' w' Hin; apply He; by right).
  specialize (IH He').
  destruct (bool_decide (k ∈ comps)); simpl; [f_equal|]; exact IH.
Qed.

Lemma filter_members_app (rem : list string) :
  NoDup (comps ++ rem) →
  List.filter (λ k, bool_decide (k ∈ comps)) (comps ++ rem) = comps.
Proof.
  intros (_ & Hdisj & _)%NoDup_app. rewrite List.filter_app.
  assert (List.filter (λ k, bool_decide (k ∈ comps)) rem = []) as ->.
  { induction rem as [|r rem IH]; simpl; [done|].
    rewrite bool_decide_false.
    - apply IH. intros x Hx Hr. apply (Hdisj x Hx). by right.
    - intros Hin. apply (Hdisj r Hin). left. }
  rewrite app_nil_r. apply forallb_filter_id, forallb_forall.
  intros x Hx. apply bool_decide_eq_true. by apply list_elem_of_In.
Qed.

End ReplayWindows.

Section ReplayResults.
Import USStockMarketMetrics.

Lemma replay_all_components s0 rows s s' :
  replay (Some s0) rows s = Ok s' →
  s'.2 = s.2 ++ flat_map ch_removed (processed s0 rows).
Proof.
  revert s; induction rows as [|row rows IH]; intros s H; simpl in *.
  - injection H as <-. by rewrite app_nil_r.
  - destruct (ch_date row <? s0).
    + injection H as <-. by rewrite app_nil_r.
    + bind_inv H. apply replay_row_snd in Ha. apply IH in H.
      simpl. by rewrite H, Ha, <- app_assoc.
Qed.

Lemma processed_id s0 rows :
  (∀ row, row ∈ rows → (ch_date row <? s0) = false) → processed s0 rows = rows.
Proof.
  induction rows as [|r rows IH]; intros Hd; simpl; [done|].
  rewrite (Hd r) by left. f_equal. apply IH. intros row Hr. apply Hd. by right.
Qed.

(** What a successful call has established. *)
Lemma get_sp500_historical_components_Ok comps df s0 ret :
  get_sp500_historical_components comps df (Some s0) = Ok ret →
  ∃ all, replay (Some s0) (rev df)
           (fold_left (λ d t, dict_set d t (Some s0, None)) comps [], comps)
         = Ok (ret, all) ∧
         all = comps ++ flat_map ch_removed (processed s0 (rev df)) ∧
         NoDup all ∧ windows_inv comps (ret, all).
Proof.
  rewrite get_sp500_historical_components_spec. intros H. bind_inv H.
  destruct (decide (NoDup (comps ++ flat_map ch_removed (processed s0 (rev df)))))
    as [Hnd|Hnd]; [rewrite bool_decide_true in H by done
                  |rewrite bool_decide_false in H by done; discriminate].
  injection H as <-. destruct a as [ret all]; simpl.
  pose proof (replay_all_components _ _ _ _ Ha) as Hall. simpl in Hall.
  exists all. split_and!; [done | done | by rewrite Hall |].
  apply (replay_windows comps _ _ _ _ Ha); simpl; [by rewrite Hall|].
  apply NoDup_app in Hnd as (Hc & _ & _).
  split_and!; simpl.
  - by apply (initial_keys _ comps []).
  - exists []. by rewrite app_nil_r.
  - intros k w Hw. apply initial_get in Hw as [[Hin ->]|Hw]; [done | discriminate].
Qed.

Lemma remove_tickers_get_other start ts l s t :
  t ∉ l → dict_get (fold_left (remove_ticker start ts) l s).1 t = dict_get s.1 t.
Proof.
  revert s; induction l as [|x l IH]; intros s Hin; simpl; [done|].
  apply not_elem_of_cons in Hin as [Hne Hin]. rewrite IH by done. simpl.
  rewrite dict_get_set. by destruct (String.eqb_spec x t).
Qed.

Lemma remove_tickers_get start ts l s t :
  t ∈ l →
  dict_get (fold_left (remove_ticker start ts) l s).1 t = Some (start, Some (sub_bday ts)).
Proof.
  revert s; induction l as [|x l IH]; intros s Hin; simpl; [by apply elem_of_nil in Hin|].
  destruct (decide (t ∈ l)) as [Hl|Hl]; [by apply IH|].
  apply elem_of_cons in Hin as [->|Hin]; [|done].
  rewrite remove_tickers_get_other by done. simpl.
  by rewrite dict_get_set, String.eqb_refl.
Qed.

Lemma replay_row_end_other start s row s' t :
  replay_row start s row = Ok s' → t ∉ ch_removed row →
  snd <$> dict_get s'.1 t = snd <$> dict_get s.1 t.
Proof.
  unfold replay_row. intros H Hin. bind_inv H. injection H as <-.
  rewrite remove_tickers_get_other by done. simpl. by eapply add_tickers_end.
Qed.

Lemma replay_end_other s0 rows s s' t :
  replay (Some s0) rows s = Ok s' →
  t ∉ flat_map ch_removed (processed s0 rows) →
  snd <$> dict_get s'.1 t = snd <$> dict_get s.1 t.
Proof.
  revert s; induction rows as [|row rows IH]; intros s H Hin; simpl in *.
  - by injection H as <-.
  - destruct (ch_date row <? s0); [by injection H as <-|].
    bind_inv H. simpl in Hin. apply not_elem_of_app in Hin as [Hrow Hrest].
    rewrite (IH _ H Hrest). by eapply replay_row_end_other.
Qed.

Lemma replay_end_removed s0 rows s s' row t :
  replay (Some s0) rows s = Ok s' → NoDup s'.2 →
  row ∈ processed s0 rows → t ∈ ch_removed row →
  snd <$> dict_get s'.1 t = Some (Some (sub_bday (ch_date row))).
Proof.
  revert s; induction rows as [|r rows IH]; intros s H Hnd Hrow Ht; simpl in *.
  - by apply elem_of_nil in Hrow.
  - destruct (ch_date r <? s0); [by apply elem_of_nil in Hrow|].
    bind_inv H. apply elem_of_cons in Hrow as [->|Hrow]; [|by eapply IH].
    pose proof (replay_all_components _ _ _ _ H) as Hall.
    pose proof (replay_row_snd _ _ _ _ Ha) as Hsnd.
    rewrite Hall, Hsnd in Hnd. apply NoDup_app in Hnd as (_ & Hdisj & _).
    rewrite (replay_end_other _ _ _ _ t H).
    + unfold replay_row in Ha. bind_inv Ha. injection Ha as <-.
      by rewrite remove_tickers_get.
    + apply Hdisj, elem_of_app. by right.
Qed.

Lemma for_each_raises_inv {A S} (P : S → Prop) (body : S → A → result S) l a s :
  a ∈ l → P s →
  (∀ s b s', P s → body s b = Ok s' → P s') →
  (∀ s, P s → is_raised (body s a)) →
  is_raised (for_each body l s).
Proof.
  intros Hin Hs Hkeep Hbody. revert s Hs. induction l as [|b l IH]; intros s Hs.
  - by apply elem_of_nil in Hin.
  - simpl. apply elem_of_cons in Hin as [<-|Hin].
    + by apply bind_Err_l, Hbody.
    + destruct (body s b) as [s1|e] eqn:Hb; simpl; [|by eexists].
      apply IH; [done|]. by eapply Hkeep.
Qed.

End ReplayResults.

(** X1: The current members of the returned map, as [get_current_components]
    reads them off (the keys whose window has no end, in the order of the
    dictionary), are exactly the list of current components the replay
    started from, in the same order. *)
Theorem historical_components_current
    (comps : list string) (df : list USStockMarketMetrics.change) (s0 : date)
    (ret : pydict window) :
  USStockMarketMetrics.get_sp500_historical_components comps df (Some s0) = Ok ret →
  Metrics.current_components ret = comps.
Proof.
  intros (all & _ & _ & Hnd & Hk & [rem Hrem] & He)%get_sp500_historical_components_Ok.
  simpl in *. rewrite (current_components_filter comps).
  - rewrite Hk, Hrem. apply filter_members_app. by rewrite <- Hrem.
  - intros k w Hin. apply He. apply dict_get_elem; [by rewrite Hk | done].
Qed.

Lemma historical_components_current_witness :
  let df := [USStockMarketMetrics.Change 10 ["A"] ["B"];
             USStockMarketMetrics.Change 20 ["D"] ["C"]]%string in
  USStockMarketMetrics.get_sp500_historical_components ["A"; "D"]%string df (Some 5)
  = Ok [("A", (Some 10, None)); ("D", (Some 20, None));
        ("C", (Some 5, Some 19)); ("B", (Some 5, Some 9))]%string ∧
  Metrics.current_components
    [("A", (Some 10, None)); ("D", (Some 20, None));
     ("C", (Some 5, Some 19)); ("B", (Some 5, Some 9))]%string
  = ["A"; "D"]%string.
Proof.
  intros df. split; [reflexivity|].
  apply (historical_components_current ["A"; "D"]%string df 5). reflexivity.
Defined.

(** X2: The keys of the returned map, in dictionary order, are the current
    components followed by the removed tickers of the processed change
    events, latest event first; no ticker occurs twice. *)
Theorem historical_components_keys
    (comps : list string) (df : list USStockMarketMetrics.change) (s0 : date)
    (ret : pydict window) :
  USStockMarketMetrics.get_sp500_historical_components comps df (Some s0) = Ok ret →
  dict_keys ret
  = comps ++ flat_map USStockMarketMetrics.ch_removed
               (USStockMarketMetrics.processed s0 (rev df)) ∧
  NoDup (dict_keys ret).
Proof.
  intros (all & _ & Hall & Hnd & Hk & _)%get_sp500_historical_components_Ok.
  simpl in Hk. rewrite Hk. by rewrite <- Hall.
Qed.

Lemma historical_components_keys_witness :
  let df := [USStockMarketMetrics.Change 3 ["Z"] ["Y"];
             USStockMarketMetrics.Change 10 ["A"] ["B"];
             USStockMarketMetrics.Change 20 ["D"] ["C"; "E"]]%string in
  dict_keys [("A", (Some 10, None)); ("D", (Some 20, None));
             ("C", (Some 5, Some 19)); ("E", (Some 5, Some 19));
             ("B", (Some 5, Some 9))]%string
  = ["A"; "D"]%string ++ flat_map USStockMarketMetrics.ch_removed
                           (USStockMarketMetrics.processed 5 (rev df)) ∧
  NoDup (dict_keys [("A", (Some 10, None)); ("D", (Some 20, None));
             ("C", (Some 5, Some 19)); ("E", (Some 5, Some 19));
             ("B", (Some 5, Some 9))]%string).
Proof.
  intros df.
  apply (historical_components_keys ["A"; "D"]%string df 5). reflexivity.
Defined.

(** X3: A ticker removed by a processed change event dated [ts] ends, in the
    returned map, on the business day before [ts]; older events that add
    the ticker move its start and keep this end. *)
Theorem historical_components_removed_end
    (comps : list string) (df : list USStockMarketMetrics.change) (s0 : date)
    (ret : pydict window) (row : USStockMarketMetrics.change) (t : string) :
  USStockMarketMetrics.get_sp500_historical_components comps df (Some s0) = Ok ret →
  row ∈ USStockMarketMetrics.processed s0 (rev df) →
  t ∈ USStockMarketMetrics.ch_removed row →
  ∃ st, dict_get ret t = Some (st, Some (sub_bday (USStockMarketMetrics.ch_date row))).
Proof.
  intros (all & Hrun & _ & Hnd & _)%get_sp500_historical_components_Ok Hrow Ht.
  pose proof (replay_end_removed _ _ _ _ row t Hrun Hnd Hrow Ht) as Hend.
  simpl in Hend. destruct (dict_get ret t) as [[st ed]|]; [|discriminate].
  injection Hend as ->. by exists st.
Qed.

Lemma historical_components_removed_end_witness :
  let df := [USStockMarketMetrics.Change 10 ["A"] ["E"];
             USStockMarketMetrics.Change 15 ["B"] ["C"];
             USStockMarketMetrics.Change 22 ["D"] ["B"]]%string in
  ∃ st, dict_get [("A", (Some 10, None)); ("D", (Some 22, None));
                  ("B", (Some 15, Some 19)); ("C", (Some 5, Some 12));
                  ("E", (Some 5, Some 9))]%string "B"
        = Some (st, Some (sub_bday 22)).
Proof.
  intros df.
  apply (historical_components_removed_end ["A"; "D"]%string df 5 _
           (USStockMarketMetrics.Change 22 ["D"] ["B"])%string "B").
  - reflexivity.
  - left.
  - left.
Defined.

(** X4: An event inside the implied period that adds a ticker which is not a
    current component and which no later-dated processed event removed
    makes the call raise (a [KeyError]) instead of returning a map. *)
Theorem historical_components_unknown_added_raises
    (comps : list string) (df : list USStockMarketMetrics.change) (s0 : date)
    (l1 l2 : list USStockMarketMetrics.change)
    (row : USStockMarketMetrics.change) (t : string) :
  USStockMarketMetrics.processed s0 (rev df) = l1 ++ row :: l2 →
  t ∈ USStockMarketMetrics.ch_added row →
  t ∉ comps →
  t ∉ flat_map USStockMarketMetrics.ch_removed l1 →
  is_raised (USStockMarketMetrics.get_sp500_historical_components comps df (Some s0)).
Proof.
  intros Hp Ht Hc Hr. rewrite get_sp500_historical_components_spec.
  apply bind_Err_l. rewrite replay_processed, Hp.
  assert (∀ r, r ∈ l1 ++ row :: l2 → (USStockMarketMetrics.ch_date r <? s0) = false)
    as Hd by (intros r Hin; rewrite <- Hp in Hin; by eapply processed_dates).
  rewrite replay_app by (intros r Hin; apply Hd, elem_of_app; by left).
  match goal with |- is_raised (?r ≫= _) => destruct r as [s1|e] eqn:H1 end; simpl;
    [|by eexists].
  rewrite (Hd row) by (apply elem_of_app; right; left).
  apply bind_Err_l. unfold USStockMarketMetrics.replay_row. apply bind_Err_l.
  apply replay_spec in H1 as [[Hnd Hk] Hall].
  2:{ apply (initial_inv _ comps [] []). split; simpl; [constructor|done]. }
  simpl in Hall.
  rewrite processed_id in Hall by (intros r Hin; apply Hd, elem_of_app; by left).
  apply (for_each_raises_inv (λ ret, t ∉ dict_keys ret)
           (USStockMarketMetrics.add_ticker (USStockMarketMetrics.ch_date row))
           _ t); [done | | |].
  - rewrite Hk, Hall. by apply not_elem_of_app.
  - intros ret b ret' Hin Hb.
    assert (for_each (USStockMarketMetrics.add_ticker (USStockMarketMetrics.ch_date row))
              [b] ret = Ok ret') as Hb' by (simpl; by rewrite Hb).
    by rewrite (add_tickers_keys _ _ _ _ Hb').
  - intros ret Hin. apply dict_get_None_keys in Hin.
    unfold USStockMarketMetrics.add_ticker. rewrite Hin. by eexists.
Qed.

Lemma historical_components_unknown_added_raises_witness :
  is_raised (USStockMarketMetrics.get_sp500_historical_components ["A"; "D"]%string
               [USStockMarketMetrics.Change 10 ["Q"] ["B"];
                USStockMarketMetrics.Change 20 ["D"] ["C"]]%string (Some 5)).
Proof.
  apply (historical_components_unknown_added_raises _ _ _
           [USStockMarketMetrics.Change 20 ["D"] ["C"]]%string []
           (USStockMarketMetrics.Change 10 ["Q"] ["B"])%string "Q").
  - reflexivity.
  - left.
  - apply (bool_decide_unpack _). vm_compute. exact I.
  - apply (bool_decide_unpack _). vm_compute. exact I.
Defined.

(** X5: With the default [start=None] a change log with at least one row makes
    the call raise: the first row's timestamp is compared with [None]. *)
Theorem historical_components_no_start_raises
    (comps : list string) (df : list USStockMarketMetrics.change) :
  df ≠ [] →
  USStockMarketMetrics.get_sp500_historical_components comps df None = Err TypeError.
Proof.
  intros Hdf. unfold USStockMarketMetrics.get_sp500_historical_components.
  destruct (rev df) as [|row rows] eqn:Hrev; [|done].
  apply (f_equal (@rev _)) in Hrev. by rewrite rev_involutive in Hrev.
Qed.

Lemma historical_components_no_start_raises_witness :
  USStockMarketMetrics.get_sp500_historical_components ["A"%string]
    [USStockMarketMetrics.Change 10 ["A"] ["B"]]%string None = Err TypeError.
Proof.
  apply historical_components_no_start_raises. discriminate.
Defined.

(** ** The label slice of a historical extract *)

Section Slices.
Import Metrics.

Lemma sorted_dates {A} (h : list (date * A)) :
  StronglySorted date_le h → StronglySorted Z.le h.*1.
Proof.
  induction 1 as [|r h Hs IH Hall]; simpl; constructor; [done|].
  apply Forall_fmap. eapply Forall_impl; [exact Hall|]. done.
Qed.

Lemma filter_lt_nil (label : date) (l : list date) :
  Forall (Z.le label) l → List.filter (λ d, d <? label) l = [].
Proof.
  induction 1 as [|d l Hd Hl IH]; simpl; [done|].
  by destruct (Z.ltb_spec d label); [lia|].
Qed.

Lemma skip_equal_notin (label : date) (l : list date) :
  StronglySorted Z.le l → Forall (Z.le label) l → label ∉ skip_equal label l.
Proof.
  induction 1 as [|d l Hs IH Hall]; simpl; intros Hge; [apply not_elem_of_nil|].
  apply Forall_cons in Hge as [Hd Hge].
  destruct (Z.eqb_spec d label) as [->|Hne]; [by apply IH|].
  intros [->|Hin]%elem_of_cons; [done|].
  rewrite Forall_forall in Hall. specialize (Hall _ Hin). lia.
Qed.

Lemma first_position_sorted (label : date) (l : list date) :
  StronglySorted Z.le l → label ∈ l →
  first_position label l = length (List.filter (λ d, d <? label) l) ∧
  label ∉ skip_equal label (drop (first_position label l) l).
Proof.
  induction 1 as [|d l Hs IH Hall]; simpl; intros Hin; [by apply elem_of_nil in Hin|].
  destruct (Z.eqb_spec d label) as [->|Hne].
  - rewrite Z.ltb_irrefl, filter_lt_nil by done. split; [done|]. simpl.
    rewrite Z.eqb_refl. by apply skip_equal_notin.
  - apply elem_of_cons in Hin as [->|Hin]; [done|].
    rewrite Forall_forall in Hall. pose proof (Hall _ Hin) as Hle.
    destruct (Z.ltb_spec d label); [|lia]. simpl.
    destruct (IH Hin) as [-> Hrest]. done.
Qed.

Lemma sorted_is_monotonic (l : list date) :
  StronglySorted Z.le l → is_monotonic Z.leb l = true.
Proof.
  induction 1 as [|d l Hs IH Hall]; simpl; [done|].
  destruct l as [|d' l]; [done|].
  apply Forall_cons in Hall as [Hd _]. rewrite IH, andb_true_r. by apply Z.leb_le.
Qed.

Lemma slice_bound_sorted (label : date) (l : list date) :
  StronglySorted Z.le l →
  slice_bound label l = Some (length (List.filter (λ d, d <? label) l)).
Proof.
  intros Hs. unfold slice_bound.
  destruct (decide (label ∈ l)) as [Hin|Hout].
  - rewrite bool_decide_true by done.
    destruct (first_position_sorted label l Hs Hin) as [Hp Hrest].
    rewrite bool_decide_false by done. by rewrite Hp.
  - rewrite bool_decide_false by done. by rewrite sorted_is_monotonic.
Qed.

Lemma drop_filter_sorted (first : date) (h : list hrow) :
  StronglySorted date_le h →
  drop (length (List.filter (λ d, d <? first) h.*1)) h
  = List.filter (λ r, first <=? r.1) h.
Proof.
  induction 1 as [|r h Hs IH Hall]; simpl; [done|].
  destruct (Z.ltb_spec r.1 first) as [Hlt|Hge]; simpl.
  - destruct (first <=? _) eqn:E; [apply Z.leb_le in E; unfold date in *; lia | exact IH].
  - assert (Forall (Z.le first) h.*1) as Hall'.
    { apply Forall_fmap. eapply Forall_impl; [exact Hall|].
      unfold date_le. simpl. intros; lia. }
    rewrite filter_lt_nil by done. simpl.
    destruct (first <=? _) eqn:E; [|apply Z.leb_gt in E; unfold date in *; lia]. f_equal.
    symmetry. apply forallb_filter_id, forallb_forall.
    intros [d v] Hin%list_elem_of_In. simpl. apply Z.leb_le.
    rewrite Forall_forall in Hall'. apply Hall', list_elem_of_fmap. by exists (d, v).
Qed.

(** On an extract in ascending date order the label slice keeps the rows
    dated on or after the label. *)
Lemma slice_from_sorted (first : date) (h : list hrow) :
  StronglySorted date_le h →
  (∃ p, slice_bound first h.*1 = Some p) ∧
  slice_from first h = List.filter (λ r, first <=? r.1) h.
Proof.
  intros Hs. unfold slice_from.
  rewrite (slice_bound_sorted first h.*1 (sorted_dates h Hs)).
  split; [by eexists | by apply drop_filter_sorted].
Qed.

(** The slice is a part of the extract. *)
Lemma slice_from_sublist (first : date) (h : list hrow) :
  slice_from first h `sublist_of` h.
Proof.
  unfold slice_from. destruct (slice_bound first h.*1); [apply sublist_drop | apply sublist_nil_l].
Qed.

End Slices.

(** ** The constructor: inputs it rejects *)

Section ConstructorErrors.
Import Metrics.

(** A ticker without any observation whose reconciliation fails makes the
    constructor fail. *)
Lemma delisted_raises src tickers stock_index hist tk :
  tk ∈ dict_keys tickers →
  Forall (λ d, yf_download src Close tk d = NaN) (yf_index src) →
  (∀ f, is_raised (reconcile src tickers (yf_index src) f tk)) →
  is_raised (init src tickers stock_index hist).
Proof.
  intros Hk Hnan Hrec. unfold init. apply bind_Err_l.
  apply for_each_raises with (a := tk); [|done].
  by apply no_observation_delisted.
Qed.

Lemma reconcile_no_end_raises src tickers rows f tk st :
  dict_get tickers tk = Some (st, None) →
  is_raised (reconcile src tickers rows f tk).
Proof.
  intros Hw. unfold reconcile.
  destruct (load_history src tk) as [h|e]; simpl; [|by eexists].
  destruct rows as [|first rows]; simpl; [by eexists|].
  destruct (slice_bound first h.*1) as [p|]; simpl; [|by eexists].
  destruct (negb _); [by eexists|].
  destruct (last _) as [lst|]; simpl; [|by eexists].
  unfold dict_lookup, window in *. rewrite Hw. simpl. by eexists.
Qed.

Lemma reconcile_outside_panel_raises src tickers rows f tk h first d v :
  cached_history src tk = Some h → head rows = Some first →
  StronglySorted date_le h →
  (d, v) ∈ h → first ≤ d → d ∉ rows →
  is_raised (reconcile src tickers rows f tk).
Proof.
  intros Hh Hfirst Hs Hin Hle Hout. unfold reconcile, load_history. rewrite Hh. simpl.
  destruct rows as [|r rows]; [done|]. injection Hfirst as ->. simpl.
  destruct (slice_from_sorted first h Hs) as [[p ->] Hslice]. simpl.
  destruct (forallb _ _) eqn:Hall; simpl; [|by eexists].
  exfalso. rewrite forallb_forall in Hall.
  specialize (Hall (d, v)). simpl in Hall.
  apply Hout, (bool_decide_unpack _), Is_true_true, Hall.
  rewrite Hslice.
  apply list_elem_of_In, elem_of_List_filter. split; [done|]. simpl. by apply Z.leb_le.
Qed.

End ConstructorErrors.

(** X6: When the price feed returns no rows at all, the constructor raises
    (an [IndexError], or the error of a failing historical extract) and
    builds no object. *)
Theorem init_empty_panel_raises
    (src : sources) (tickers : pydict window) (stock_index : option string)
    (hist : option (gmap string series)) :
  yf_index src = [] →
  is_raised (Metrics.init src tickers stock_index hist).
Proof.
  intros Hrows. unfold Metrics.init. rewrite Hrows.
  do 3 (match goal with
        | |- is_raised (?r ≫= _) => destruct r; simpl; [|by eexists]
        end).
  by eexists.
Qed.

Lemma init_empty_panel_raises_witness :
  is_raised (Metrics.init Scenarios.no_rows Example.tickers None Example.hist).
Proof.
  apply init_empty_panel_raises. reflexivity.
Defined.

(** X7: A ticker for which the feed has no close price at all and whose
    membership window has no end date (a current member) makes the
    constructor raise: its end date is compared with the last date of the
    historical extract. *)
Theorem init_current_member_without_data_raises
    (src : sources) (tickers : pydict window) (stock_index : option string)
    (hist : option (gmap string series)) (tk : string) (st : option date) :
  dict_get tickers tk = Some (st, None) →
  Forall (λ d, yf_download src Close tk d = NaN) (yf_index src) →
  is_raised (Metrics.init src tickers stock_index hist).
Proof.
  intros Hw Hnan. apply (delisted_raises _ _ _ _ tk); [|done|].
  - by eapply dict_get_Some_keys.
  - intros f. by eapply reconcile_no_end_raises.
Qed.

Lemma init_current_member_without_data_raises_witness :
  is_raised (Metrics.init Example.src Scenarios.tickers_current_B None Example.hist).
Proof.
  apply (init_current_member_without_data_raises _ _ _ _ "B" None).
  - reflexivity.
  - simpl. unfold Example.rows. repeat constructor.
Defined.

(** X8: For a ticker without any observation in the feed whose cached
    historical extract is in ascending date order, a row of the extract that
    is dated on or after the first date of the panel and is no date of the
    panel makes the constructor raise. *)
Theorem init_extract_outside_panel_raises
    (src : sources) (tickers : pydict window) (stock_index : option string)
    (hist : option (gmap string series)) (tk : string)
    (h : list hrow) (first d : date) (v : fl * fl) :
  tk ∈ dict_keys tickers →
  Forall (λ d, yf_download src Close tk d = NaN) (yf_index src) →
  cached_history src tk = Some h →
  StronglySorted date_le h →
  head (yf_index src) = Some first →
  (d, v) ∈ h → first ≤ d → d ∉ yf_index src →
  is_raised (Metrics.init src tickers stock_index hist).
Proof.
  intros Hk Hnan Hh Hs Hfirst Hin Hle Hout.
  apply (delisted_raises _ _ _ _ tk); [done..|].
  intros f. by eapply reconcile_outside_panel_raises.
Qed.

Lemma init_extract_outside_panel_raises_witness :
  is_raised (Metrics.init Scenarios.weekend_extract Example.tickers None Example.hist).
Proof.
  apply (init_extract_outside_panel_raises _ _ _ _ "B"
           [(1, (Fin 50, Fin 7)); (6, (Fin 51, Fin 8))] 1 6 (Fin 51, Fin 8)).
  - apply (bool_decide_unpack _). vm_compute. exact I.
  - simpl. unfold Example.rows. repeat constructor.
  - reflexivity.
  - repeat constructor. unfold date_le. simpl. lia.
  - reflexivity.
  - right. left.
  - lia.
  - apply (bool_decide_unpack _). vm_compute. exact I.
Defined.

(** X9: For a ticker without any observation in the feed and without a cached
    extract, a failure of the secondary provider is not caught: the
    constructor raises. *)
Theorem init_provider_failure_raises
    (src : sources) (tickers : pydict window) (stock_index : option string)
    (hist : option (gmap string series)) (tk : string) (e : error) :
  tk ∈ dict_keys tickers →
  Forall (λ d, yf_download src Close tk d = NaN) (yf_index src) →
  cached_history src tk = None →
  av_daily src tk = Err e →
  is_raised (Metrics.init src tickers stock_index hist).
Proof.
  intros Hk Hnan Hc Hav. apply (delisted_raises _ _ _ _ tk); [done..|].
  intros f. unfold Metrics.reconcile, Metrics.load_history. rewrite Hc, Hav.
  by eexists.
Qed.

Lemma init_provider_failure_raises_witness :
  is_raised (Metrics.init Example.src Scenarios.tickers_with_E None Example.hist).
Proof.
  apply (init_provider_failure_raises _ _ _ _ "E" (RemoteDataError "no API key")).
  - apply (bool_decide_unpack _). vm_compute. exact I.
  - simpl. unfold Example.rows. repeat constructor.
  - reflexivity.
  - reflexivity.
Defined.

(** ** The other columns of the aggregate frame *)

Section AggregationMore.
Import Metrics.

(** The frame written by one pass of the loop body. *)
Lemma aggregate_Ok tickers rows f dy so s tk s' :
  aggregate tickers rows f dy so s tk = Ok s' →
  ∃ w sh,
    dict_get tickers tk = Some w ∧ dict_get so tk = Some sh ∧
    s'.1 = set_in_window
             (add_in_window
                (add_in_window s.1 TURNOVER w (λ d, fmul (f Close tk d) (f Volume tk d)))
                CAPITALIZATION w (λ d, fmul (f Close tk d) (sh d)))
             tk w (λ d, fmul (f Close tk d) (sh d)) ∧
    if bool_decide (tk ∈ current_components tickers)
    then ∃ lst y, last rows = Some lst ∧ dict_get dy tk = Some y ∧
                  s'.2 = fadd s.2 (fmul (fmul (f Close tk lst) (sh lst)) y)
    else s'.2 = s.2.
Proof.
  intros H. unfold aggregate, dict_lookup in H.
  destruct (dict_get tickers tk) as [w|] eqn:Hw; simpl in H; [|done].
  destruct (dict_get so tk) as [sh|] eqn:Hsh; simpl in H; [|done].
  exists w, sh. split; [done|]. split; [done|].
  destruct (bool_decide _).
  - destruct (last rows) as [lst|]; simpl in H; [|done].
    destruct (dict_get dy tk) as [y|]; simpl in H; [|done].
    injection H as <-. split; [done|]. by exists lst, y.
  - by injection H as <-.
Qed.

Lemma aggregate_loop_turnover tickers rows f dy so l s s' (d : date) :
  for_each (aggregate tickers rows f dy so) l s = Ok s' →
  TURNOVER ∉ l →
  s'.1 TURNOVER d =
  fold_left fadd
    (map (λ tk, fmul (f Close tk d) (f Volume tk d))
       (List.filter (λ tk, match dict_get tickers tk with
                           | Some w => in_window w.1 w.2 d
                           | None => false
                           end) l))
    (s.1 TURNOVER d).
Proof.
  revert s; induction l as [|tk l IH]; intros s H Hnot; simpl in *.
  - by injection H as <-.
  - bind_inv H. apply not_elem_of_cons in Hnot as [Hne Hnot].
    destruct (aggregate_Ok _ _ _ _ _ _ _ _ Ha) as (w & sh & Hw & Hsh & Hstep & _).
    rewrite (IH _ H Hnot), Hstep, Hw.
    unfold set_in_window, add_in_window.
    destruct (String.eqb_spec TURNOVER tk) as [<-|_]; [done|]. simpl.
    by destruct (in_window w.1 w.2 d).
Qed.

Lemma aggregate_loop_column tickers rows f dy so l s s' tk w sh (d : date) :
  for_each (aggregate tickers rows f dy so) l s = Ok s' →
  tk ≠ CAPITALIZATION → tk ≠ TURNOVER →
  dict_get tickers tk = Some w → dict_get so tk = Some sh →
  s'.1 tk d =
  if bool_decide (tk ∈ l) && in_window w.1 w.2 d
  then fmul (f Close tk d) (sh d) else s.1 tk d.
Proof.
  intros H Hc Ht Hw Hsh. revert s H; induction l as [|b l IH]; intros s H; simpl in *.
  - by injection H as <-.
  - bind_inv H.
    destruct (aggregate_Ok _ _ _ _ _ _ _ _ Ha) as (w' & sh' & Hw' & Hsh' & Hstep & _).
    rewrite (IH _ H), Hstep. unfold set_in_window, add_in_window.
    destruct (String.eqb_spec tk CAPITALIZATION) as [?|_]; [done|].
    destruct (String.eqb_spec tk TURNOVER) as [?|_]; [done|]. simpl.
    destruct (String.eqb_spec tk b) as [<-|Hne]; simpl.
    + unfold window in *. rewrite Hw in Hw'. rewrite Hsh in Hsh'.
      injection Hw' as <-. injection Hsh' as <-.
      rewrite (bool_decide_true (tk ∈ tk :: l)) by left. simpl.
      destruct (in_window w.1 w.2 d); [|by rewrite andb_false_r].
      by destruct (bool_decide (tk ∈ l)).
    + destruct (decide (tk ∈ l)) as [Hl|Hl].
      * rewrite (bool_decide_true (tk ∈ l)), (bool_decide_true (tk ∈ b :: l));
          [done | by right | done].
      * rewrite (bool_decide_false (tk ∈ l)), (bool_decide_false (tk ∈ b :: l));
          [done | | done].
        by intros [?|?]%elem_of_cons.
Qed.

Lemma aggregate_loop_yield tickers rows f dy so l s s' lst :
  for_each (aggregate tickers rows f dy so) l s = Ok s' →
  last rows = Some lst →
  s'.2 =
  fold_left fadd
    (map (λ tk, fmul (fmul (f Close tk lst)
                        (match dict_get so tk with Some sh => sh lst | None => NaN end))
                  (match dict_get dy tk with Some y => y | None => NaN end))
       (List.filter (λ tk, bool_decide (tk ∈ current_components tickers)) l))
    s.2.
Proof.
  intros H Hlast. revert s H; induction l as [|tk l IH]; intros s H; simpl in *.
  - by injection H as <-.
  - bind_inv H.
    destruct (aggregate_Ok _ _ _ _ _ _ _ _ Ha) as (w & sh & Hw & Hsh & _ & Hy).
    rewrite (IH _ H).
    destruct (bool_decide (tk ∈ current_components tickers)); simpl.
    + destruct Hy as (lst' & y & Hlst' & Hdy & ->).
      rewrite Hlast in Hlst'. injection Hlst' as <-. by rewrite Hsh, Hdy.
    + by rewrite Hy.
Qed.

Lemma record_yield_get src l dy tk :
  dict_get (fold_left (record_yield src) l dy) tk =
  if bool_decide (tk ∈ l)
  then Some (match yf_dividendYield src tk with None => Fin 0 | Some y => y end)
  else dict_get dy tk.
Proof.
  revert dy; induction l as [|b l IH]; intros dy; simpl; [done|].
  rewrite IH. destruct (decide (tk ∈ l)) as [Hl|Hl].
  - rewrite (bool_decide_true (tk ∈ l)), (bool_decide_true (tk ∈ b :: l));
      [done | by right | done].
  - rewrite (bool_decide_false (tk ∈ l)) by done.
    unfold record_yield. rewrite dict_get_set.
    destruct (String.eqb_spec b tk) as [->|Hne].
    + by rewrite bool_decide_true by left.
    + rewrite bool_decide_false; [done|]. intros [?|?]%elem_of_cons; congruence.
Qed.

End AggregationMore.

(** X10: After a successful construction the column of the daily trading value
    holds, on every date of the panel, the sum of close price times volume
    over exactly the tickers whose membership window contains the date.  The
    ticker symbols are assumed to differ from the name ["Turnover ratio"] of
    the column. *)
Theorem trading_value_is_sum_over_active
    (src : sources) (tickers : pydict window) (stock_index : option string)
    (hist : option (gmap string series)) (m : Metrics.t) (d : date) :
  Metrics.init src tickers stock_index hist = Ok m →
  Metrics.TURNOVER ∉ dict_keys tickers →
  d ∈ Metrics.index m →
  Metrics.capitalization m Metrics.TURNOVER d = Spec.trading_value m d.
Proof.
  intros H Hcol _.
  apply init_Ok in H as (f & so & s & lst & _ & _ & Hagg & _ & Ht & _ & Hd & _ & _ & Hc & _).
  rewrite Hc, (aggregate_loop_turnover _ _ _ _ _ _ _ _ d Hagg Hcol).
  unfold Spec.trading_value, Spec.fsum, Spec.close, Spec.volume, Spec.active.
  rewrite Ht, Hd. reflexivity.
Qed.

Lemma trading_value_is_sum_over_active_witness :
  ∃ m, Metrics.init Example.src Example.tickers None Example.hist = Ok m ∧
       Metrics.capitalization m Metrics.TURNOVER 10 = Spec.trading_value m 10.
Proof.
  destruct (Metrics.init Example.src Example.tickers None Example.hist) as [m|e] eqn:H.
  - exists m. split; [reflexivity|].
    apply (trading_value_is_sum_over_active _ _ _ _ m 10 H).
    + apply (bool_decide_unpack _). vm_compute. exact I.
    + pose proof (init_Ok _ _ _ _ _ H) as (f & so & s & lst & _ & _ & _ & _ & _ & Hi & _).
      rewrite Hi. apply (bool_decide_unpack _). vm_compute. exact I.
  - destruct (example_init_no_error _ _ H).
Defined.

(** X11: After a successful construction the frame of capitalizations holds one
    column for each ticker: inside the membership window of the ticker it
    is close price times resolved shares outstanding, and outside the window
    it is missing (NaN), not zero. *)
Theorem ticker_column_is_contribution
    (src : sources) (tickers : pydict window) (stock_index : option string)
    (hist : option (gmap string series)) (m : Metrics.t)
    (tk : string) (w : window) (d : date) :
  Metrics.init src tickers stock_index hist = Ok m →
  dict_get tickers tk = Some w →
  tk ≠ Metrics.CAPITALIZATION → tk ≠ Metrics.TURNOVER →
  d ∈ Metrics.index m →
  Metrics.capitalization m tk d =
  if in_window w.1 w.2 d then Spec.contribution m tk d else NaN.
Proof.
  intros H Hw Hc Ht _.
  apply init_Ok in H as (f & so & s & lst & _ & Hres & Hagg & _ & _ & _ & Hd & _ & Hso & Hcap & _).
  pose proof (dict_get_Some_keys _ _ _ Hw) as Hk.
  destruct (dict_get so tk) as [sh|] eqn:Hsh.
  - rewrite Hcap, (aggregate_loop_column _ _ _ _ _ _ _ _ tk w sh d Hagg Hc Ht Hw Hsh).
    rewrite bool_decide_true by done. simpl.
    unfold Spec.contribution, Spec.close, Spec.shares. rewrite Hd, Hso, Hsh.
    destruct (in_window w.1 w.2 d); [done|].
    unfold Metrics.empty_capitalization.
    destruct (String.eqb_spec tk Metrics.CAPITALIZATION) as [?|_]; [done|].
    by destruct (String.eqb_spec tk Metrics.TURNOVER) as [?|_].
  - exfalso.
    assert (is_raised (for_each (Metrics.aggregate tickers (yf_index src) f
                         (fold_left (Metrics.record_yield src)
                            (Metrics.current_components tickers) []) so)
                         (dict_keys tickers) (Metrics.empty_capitalization, Fin 0)))
      as [e He].
    { apply for_each_raises with (a := tk); [done|]. intros s0.
      unfold Metrics.aggregate, dict_lookup. unfold window in *.
      rewrite Hw, Hsh. by eexists. }
    congruence.
Qed.

Lemma ticker_column_is_contribution_witness :
  ∃ m, Metrics.init Example.src Example.tickers None Example.hist = Ok m ∧
       Metrics.capitalization m "C" 2 = NaN ∧
       Metrics.capitalization m "C" 4 = Spec.contribution m "C" 4.
Proof.
  destruct (Metrics.init Example.src Example.tickers None Example.hist) as [m|e] eqn:H.
  - exists m. split; [reflexivity|].
    assert (∀ d, d ∈ Metrics.index m ↔ d ∈ Example.rows) as Hi.
    { pose proof (init_Ok _ _ _ _ _ H) as (f & so & s & lst & _ & _ & _ & _ & _ & Hi & _).
      by rewrite Hi. }
    split.
    + apply (ticker_column_is_contribution _ _ _ _ m "C" (Some 3, None) 2 H);
        [reflexivity | discriminate | discriminate |].
      apply Hi, (bool_decide_unpack _). vm_compute. exact I.
    + apply (ticker_column_is_contribution _ _ _ _ m "C" (Some 3, None) 4 H);
        [reflexivity | discriminate | discriminate |].
      apply Hi, (bool_decide_unpack _). vm_compute. exact I.
  - destruct (example_init_no_error _ _ H).
Defined.

(** X12: The forward dividend yield of a constructed object is the sum, over
    the current components, of close price times shares outstanding on the
    last date of the panel times the recorded dividend yield, divided by the
    aggregate capitalization on that date. *)
Theorem forward_dividend_yield_is_weighted_sum
    (src : sources) (tickers : pydict window) (stock_index : option string)
    (hist : option (gmap string series)) (m : Metrics.t) (lst : date) :
  Metrics.init src tickers stock_index hist = Ok m →
  last (Metrics.index m) = Some lst →
  Metrics.forward_dividend_yield m =
  fdiv (Spec.dividends m lst) (Metrics.capitalization m Metrics.CAPITALIZATION lst).
Proof.
  intros H Hlast.
  apply init_Ok in H as (f & so & s & lst' & _ & _ & Hagg & Hl & Ht & Hi & Hd & Hdy & Hso & Hc & Hy & _).
  rewrite Hi, Hl in Hlast. injection Hlast as ->.
  rewrite Hy, Hc. f_equal.
  rewrite (aggregate_loop_yield _ _ _ _ _ _ _ _ lst Hagg Hl).
  unfold Spec.dividends, Spec.fsum, Spec.contribution, Spec.close, Spec.shares,
    Spec.dividend_yield.
  rewrite Ht, Hd, Hso, Hdy. reflexivity.
Qed.

Lemma forward_dividend_yield_is_weighted_sum_witness :
  ∃ m, Metrics.init Example.src Example.tickers None Example.hist = Ok m ∧
       Metrics.forward_dividend_yield m =
       fdiv (Spec.dividends m 10) (Metrics.capitalization m Metrics.CAPITALIZATION 10).
Proof.
  destruct (Metrics.init Example.src Example.tickers None Example.hist) as [m|e] eqn:H.
  - exists m. split; [reflexivity|].
    apply (forward_dividend_yield_is_weighted_sum _ _ _ _ m 10 H).
    pose proof (init_Ok _ _ _ _ _ H) as (f & so & s & lst & _ & _ & _ & _ & _ & Hi & _).
    rewrite Hi. reflexivity.
  - destruct (example_init_no_error _ _ H).
Defined.

(** X13: The dividend yields recorded by the constructor: a current component
    gets the yield reported by the feed, and 0 when the feed reports none;
    a ticker that is no current component gets no entry. *)
Theorem recorded_dividend_yield
    (src : sources) (tickers : pydict window) (stock_index : option string)
    (hist : option (gmap string series)) (m : Metrics.t) (tk : string) :
  Metrics.init src tickers stock_index hist = Ok m →
  dict_get (Metrics.dividend_yield m) tk =
  if bool_decide (tk ∈ Metrics.current_components tickers)
  then Some (match yf_dividendYield src tk with None => Fin 0 | Some y => y end)
  else None.
Proof.
  intros H.
  apply init_Ok in H as (f & so & s & lst & _ & _ & _ & _ & _ & _ & _ & Hdy & _).
  rewrite Hdy. apply record_yield_get.
Qed.

Lemma recorded_dividend_yield_witness :
  ∃ m, Metrics.init Example.src Example.tickers None Example.hist = Ok m ∧
       dict_get (Metrics.dividend_yield m) "C" = Some (Fin 0) ∧
       dict_get (Metrics.dividend_yield m) "B" = None.
Proof.
  destruct (Metrics.init Example.src Example.tickers None Example.hist) as [m|e] eqn:H.
  - exists m. split; [reflexivity|].
    split; rewrite (recorded_dividend_yield _ _ _ _ m _ H); reflexivity.
  - destruct (example_init_no_error _ _ H).
Defined.

(** ** The panel of a ticker without feed data *)

Section Reconciliation.
Import Metrics.

Lemma add_bday_gt (d : date) : d < add_bday d.
Proof.
  unfold add_bday, weekday. pose proof (Z.mod_pos_bound (d + 6) 7).
  destruct (4 <? (d + 6) mod 7); [lia|].
  destruct ((d + 6) mod 7 + 1 <=? 4); lia.
Qed.

(** What one pass of the loop body has written for its ticker. *)
Lemma reconcile_Ok src tickers rows f tk f' h first lst st ed :
  reconcile src tickers rows f tk = Ok f' →
  load_history src tk = Ok h → head rows = Some first →
  last (slice_from first h) = Some lst →
  dict_get tickers tk = Some (st, Some ed) →
  ∀ fld d,
    f' fld tk d =
    if (lst.1 <? ed) && in_window (Some (add_bday lst.1)) (Some ed) d
    then match fld with Close => lst.2.1 | Volume => Fin 0 end
    else if bool_decide (d ∈ (slice_from first h).*1)
         then history_value (slice_from first h) fld d
         else f fld tk d.
Proof.
  intros H Hh Hfirst Hlast Hw fld d. unfold reconcile in H. rewrite Hh in H. simpl in H.
  destruct rows as [|r rows]; [done|]. injection Hfirst as ->. simpl in H.
  destruct (slice_bound first h.*1) as [p|] eqn:Hp; simpl in H; [|done].
  destruct (negb _); [done|]. rewrite Hlast in H. simpl in H.
  unfold dict_lookup, window in *. rewrite Hw in H. simpl in H.
  destruct (_ <? ed); injection H as <-; unfold set_rows;
    rewrite String.eqb_refl; simpl; [|done].
  by destruct (in_window _ _ d).
Qed.

Lemma history_value_elem (h : list hrow) (d : date) (v : fl * fl) (fld : field) :
  NoDup h.*1 → (d, v) ∈ h → history_value h fld d = hrow_value (d, v) fld.
Proof.
  unfold history_value. induction h as [|[d' v'] h IH]; simpl; intros Hnd Hin.
  - by apply elem_of_nil in Hin.
  - apply NoDup_cons in Hnd as [Hd' Hnd].
    apply elem_of_cons in Hin as [[= <- <-]|Hin].
    + by rewrite Z.eqb_refl.
    + destruct (Z.eqb_spec d' d) as [->|_]; [|by apply IH].
      exfalso. apply Hd'. apply list_elem_of_fmap. by exists (d, v).
Qed.

Lemma slice_from_NoDup first (h : list hrow) : NoDup h.*1 → NoDup (slice_from first h).*1.
Proof.
  intros Hnd. apply (sublist_NoDup _ h.*1); [exact Hnd|].
  apply fmap_sublist, slice_from_sublist.
Qed.

End Reconciliation.

(** X14: For a ticker without any observation in the feed whose historical
    extract ends before the end of its membership window, every date of the
    panel from the business day after the last extract row up to and
    including the end of the window holds the last close price of the
    extract and a volume of zero. *)
Theorem delisted_gap_fill
    (src : sources) (tickers : pydict window) (stock_index : option string)
    (hist : option (gmap string series)) (m : Metrics.t) (tk : string)
    (h : list hrow) (first : date) (lst : hrow) (st : option date) (ed d : date) :
  Metrics.init src tickers stock_index hist = Ok m →
  Forall (λ d, yf_download src Close tk d = NaN) (yf_index src) →
  Metrics.load_history src tk = Ok h →
  head (yf_index src) = Some first →
  last (Metrics.slice_from first h) = Some lst →
  dict_get tickers tk = Some (st, Some ed) →
  d ∈ Metrics.index m →
  add_bday lst.1 ≤ d ≤ ed →
  Metrics.data m Close tk d = lst.2.1 ∧ Metrics.data m Volume tk d = Fin 0.
Proof.
  intros H Hnan Hh Hfirst Hlast Hw _ [Hlo Hhi].
  pose proof (dict_get_Some_keys _ _ _ Hw) as Hk.
  pose proof (no_observation_delisted src tickers tk Hk Hnan) as Hdel.
  apply init_Ok in H as (f & so & s & l & Hrec & _ & _ & _ & _ & _ & Hd & _).
  rewrite Hd.
  assert (∀ f f', Metrics.reconcile src tickers (yf_index src) f tk = Ok f' →
                  f' Close tk d = lst.2.1 ∧ f' Volume tk d = Fin 0) as Hset.
  { intros g g' Hg.
    pose proof (reconcile_Ok _ _ _ _ _ _ _ _ _ _ _ Hg Hh Hfirst Hlast Hw) as Hval.
    pose proof (add_bday_gt lst.1) as Hgt.
    assert ((lst.1 <? ed) && in_window (Some (add_bday lst.1)) (Some ed) d = true) as Hgap.
    { unfold in_window. apply andb_true_intro. split; [apply Z.ltb_lt; lia|].
      apply andb_true_intro. split; apply Z.leb_le; lia. }
    split; [rewrite (Hval Close d) | rewrite (Hval Volume d)]; by rewrite Hgap. }
  eapply (for_each_establish
            (λ f, f Close tk d = lst.2.1 ∧ f Volume tk d = Fin 0) _ _ tk);
    [exact Hdel | exact Hset | | exact Hrec].
  intros g b g' [Hg1 Hg2] Hb. destruct (decide (tk = b)) as [<-|Hne]; [by eapply Hset|].
  by rewrite (reconcile_other _ _ _ _ _ _ tk Close d Hb Hne),
    (reconcile_other _ _ _ _ _ _ tk Volume d Hb Hne).
Qed.

Lemma delisted_gap_fill_witness :
  ∃ m, Metrics.init Example.src Example.tickers None Example.hist = Ok m ∧
       Metrics.data m Close "B" 8 = Fin 51 ∧ Metrics.data m Volume "B" 8 = Fin 0.
Proof.
  destruct (Metrics.init Example.src Example.tickers None Example.hist) as [m|e] eqn:H.
  - exists m. split; [reflexivity|].
    apply (delisted_gap_fill _ _ _ _ m "B"
             [(1, (Fin 50, Fin 7)); (2, (Fin 50, Fin 7)); (3, (Fin 51, Fin 8))]
             1 (3, (Fin 51, Fin 8)) None 9 8 H).
    + simpl. unfold Example.rows. repeat constructor.
    + reflexivity.
    + reflexivity.
    + reflexivity.
    + reflexivity.
    + pose proof (init_Ok _ _ _ _ _ H) as (f & so & s & lst & _ & _ & _ & _ & _ & Hi & _).
      rewrite Hi. apply (bool_decide_unpack _). vm_compute. exact I.
    + vm_compute. split; discriminate.
  - destruct (example_init_no_error _ _ H).
Defined.

(** X15: For a ticker without any observation in the feed whose historical
    extract is in ascending date order, without a repeated date, the panel
    holds the close price and the volume of the extract on every date of the
    extract from the first date of the panel up to the date of the last
    extract row. *)
Theorem delisted_extract_values
    (src : sources) (tickers : pydict window) (stock_index : option string)
    (hist : option (gmap string series)) (m : Metrics.t) (tk : string)
    (h : list hrow) (first : date) (lst : hrow) (st : option date) (ed d : date)
    (v : fl * fl) :
  Metrics.init src tickers stock_index hist = Ok m →
  Forall (λ d, yf_download src Close tk d = NaN) (yf_index src) →
  Metrics.load_history src tk = Ok h →
  StronglySorted date_le h →
  NoDup h.*1 →
  head (yf_index src) = Some first →
  last (Metrics.slice_from first h) = Some lst →
  dict_get tickers tk = Some (st, Some ed) →
  (d, v) ∈ h →
  first ≤ d ≤ lst.1 →
  Metrics.data m Close tk d = v.1 ∧ Metrics.data m Volume tk d = v.2.
Proof.
  intros H Hnan Hh Hs Hnd Hfirst Hlast Hw Hin [Hlo Hhi].
  pose proof (dict_get_Some_keys _ _ _ Hw) as Hk.
  pose proof (no_observation_delisted src tickers tk Hk Hnan) as Hdel.
  apply init_Ok in H as (f & so & s & l & Hrec & _ & _ & _ & _ & _ & Hd & _).
  rewrite Hd.
  assert ((d, v) ∈ Metrics.slice_from first h) as Hslice.
  { rewrite (proj2 (slice_from_sorted first h Hs)).
    apply elem_of_List_filter. split; [done|]. simpl. by apply Z.leb_le. }
  assert (∀ f f', Metrics.reconcile src tickers (yf_index src) f tk = Ok f' →
                  f' Close tk d = v.1 ∧ f' Volume tk d = v.2) as Hset.
  { intros g g' Hg.
    pose proof (reconcile_Ok _ _ _ _ _ _ _ _ _ _ _ Hg Hh Hfirst Hlast Hw) as Hval.
    pose proof (add_bday_gt lst.1) as Hgt.
    assert (in_window (Some (add_bday lst.1)) (Some ed) d = false) as Hgap.
    { unfold in_window. apply andb_false_intro1, Z.leb_gt. lia. }
    assert (bool_decide (d ∈ (Metrics.slice_from first h).*1) = true) as Hd'.
    { apply bool_decide_eq_true, list_elem_of_fmap. by exists (d, v). }
    split; [rewrite (Hval Close d) | rewrite (Hval Volume d)];
      rewrite Hgap, andb_false_r, Hd';
      by rewrite (history_value_elem _ d v _ (slice_from_NoDup first h Hnd) Hslice). }
  eapply (for_each_establish (λ f, f Close tk d = v.1 ∧ f Volume tk d = v.2) _ _ tk);
    [exact Hdel | exact Hset | | exact Hrec].
  intros g b g' [Hg1 Hg2] Hb. destruct (decide (tk = b)) as [<-|Hne]; [by eapply Hset|].
  by rewrite (reconcile_other _ _ _ _ _ _ tk Close d Hb Hne),
    (reconcile_other _ _ _ _ _ _ tk Volume d Hb Hne).
Qed.

Lemma delisted_extract_values_witness :
  ∃ m, Metrics.init Example.src Example.tickers None Example.hist = Ok m ∧
       Metrics.data m Close "B" 2 = Fin 50 ∧ Metrics.data m Volume "B" 2 = Fin 7.
Proof.
  destruct (Metrics.init Example.src Example.tickers None Example.hist) as [m|e] eqn:H.
  - exists m. split; [reflexivity|].
    apply (delisted_extract_values _ _ _ _ m "B"
             [(1, (Fin 50, Fin 7)); (2, (Fin 50, Fin 7)); (3, (Fin 51, Fin 8))]
             1 (3, (Fin 51, Fin 8)) None 9 2 (Fin 50, Fin 7) H).
    + simpl. unfold Example.rows. repeat constructor.
    + reflexivity.
    + repeat constructor; unfold date_le; simpl; lia.
    + apply (bool_decide_unpack _). vm_compute. exact I.
    + reflexivity.
    + reflexivity.
    + reflexivity.
    + right. left.
    + vm_compute. split; discriminate.
  - destruct (example_init_no_error _ _ H).
Defined.

(** ** Rolling the shares outstanding over the panel *)

Section Shares.
Import Metrics.

Context {A : Type}.

Lemma insert_row_perm (r : date * A) s : insert_row r s ≡ₚ r :: s.
Proof.
  induction s as [|r' s IH]; simpl; [done|].
  destruct (r.1 <? r'.1); [done|]. rewrite IH. apply Permutation_swap.
Qed.

Lemma sort_index_perm (s : list (date * A)) : sort_index s ≡ₚ s.
Proof.
  unfold sort_index.
  assert (∀ acc, fold_left (λ acc r, insert_row r acc) s acc ≡ₚ s ++ acc) as H.
  { induction s as [|r s IH]; intros acc; simpl; [done|].
    rewrite IH, insert_row_perm. by rewrite Permutation_middle. }
  by rewrite H, app_nil_r.
Qed.

Lemma insert_row_sorted (r : date * A) s :
  StronglySorted date_le s → StronglySorted date_le (insert_row r s).
Proof.
  induction s as [|r' s IH]; simpl; intros Hs.
  - repeat constructor.
  - apply StronglySorted_cons in Hs as [Hall Hs].
    destruct (Z.ltb_spec r.1 r'.1) as [Hlt|Hge].
    + constructor; [by constructor|].
      constructor; [unfold date_le; lia|].
      eapply Forall_impl; [exact Hall|]. unfold date_le. intros; lia.
    + constructor; [by apply IH|].
      rewrite insert_row_perm. constructor; [unfold date_le; lia | done].
Qed.

Lemma sort_index_sorted (s : list (date * A)) : StronglySorted date_le (sort_index s).
Proof.
  unfold sort_index.
  assert (∀ acc, StronglySorted date_le acc →
                 StronglySorted date_le (fold_left (λ acc r, insert_row r acc) s acc)) as H.
  { induction s as [|r s IH]; intros acc Hacc; simpl; [done|].
    by apply IH, insert_row_sorted. }
  apply H. constructor.
Qed.

Lemma NoDup_fst_eq (l : list (date * A)) d x y :
  NoDup l.*1 → (d, x) ∈ l → (d, y) ∈ l → x = y.
Proof.
  induction l as [|[d' v] l IH]; simpl; intros Hnd Hx Hy; [by apply elem_of_nil in Hx|].
  apply NoDup_cons in Hnd as [Hd' Hnd].
  assert (∀ z, (d, z) ∈ l → d' ≠ d) as Hne.
  { intros z Hz ->. apply Hd', list_elem_of_fmap. by exists (d, z). }
  apply elem_of_cons in Hx as [Hx|Hx], Hy as [Hy|Hy].
  - congruence.
  - injection Hx as -> ->. by destruct (Hne _ Hy).
  - injection Hy as -> ->. by destruct (Hne _ Hx).
  - by apply IH.
Qed.

End Shares.

Section SharesFill.
Import Metrics.

Lemma series_get_elem (s : series) d x :
  NoDup s.*1 → (d, x) ∈ s → series_get s d = Some x.
Proof.
  unfold series_get. induction s as [|[d' v] s IH]; simpl; intros Hnd Hin.
  - by apply elem_of_nil in Hin.
  - apply NoDup_cons in Hnd as [Hd' Hnd].
    apply elem_of_cons in Hin as [[= <- <-]|Hin].
    + by rewrite Z.eqb_refl.
    + destruct (Z.eqb_spec d' d) as [->|_]; [|by apply IH].
      exfalso. apply Hd', list_elem_of_fmap. by exists (d, x).
Qed.

Lemma ffill_from_dates prev (s : series) : (ffill_from prev s).*1 = s.*1.
Proof.
  revert prev; induction s as [|[d x] s IH]; intros prev; simpl; [done|].
  f_equal. apply IH.
Qed.

Lemma series_bfill_dates (s : series) : (series_bfill s).*1 = s.*1.
Proof. induction s as [|[d x] s IH]; simpl; [done|]. f_equal. exact IH. Qed.

(** A value that is present survives the backward fill. *)
Lemma series_bfill_elem (s : series) d x :
  (d, x) ∈ s → isna x = false → (d, x) ∈ series_bfill s.
Proof.
  induction s as [|[d' v] s IH]; simpl; intros Hin Hx; [by apply elem_of_nil in Hin|].
  apply elem_of_cons in Hin as [[= <- <-]|Hin].
  - rewrite Hx. left.
  - right. by apply IH.
Qed.

(** After a value [x], the rows up to [d] that hold no value take [x]. *)
Lemma ffill_from_run (s : series) (x : fl) (d : date) :
  isna x = false →
  StronglySorted date_le s →
  d ∈ s.*1 →
  (∀ d' y, (d', y) ∈ s → d' ≤ d → isna y = true) →
  (d, x) ∈ ffill_from x s.
Proof.
  intros Hx. induction s as [|[d' v] s IH]; simpl; intros Hs Hd Hnan.
  - by apply elem_of_nil in Hd.
  - apply StronglySorted_cons in Hs as [Hall Hs].
    apply elem_of_cons in Hd as [->|Hd].
    + rewrite (Hnan d' v) by (left || lia). left.
    + assert (d' ≤ d) as Hle.
      { apply list_elem_of_fmap in Hd as ([d2 v2] & -> & Hin).
        rewrite Forall_forall in Hall. apply (Hall _ Hin). }
      rewrite (Hnan d' v) by (left || done). right.
      apply IH; [done..|]. intros d2 y Hin. apply Hnan. by right.
Qed.

(** The forward fill carries the value reported on [d0] to [d]. *)
Lemma ffill_from_carries (s : series) prev d0 x d :
  isna x = false →
  StronglySorted date_le s → NoDup s.*1 →
  (d0, x) ∈ s → d ∈ s.*1 → d0 ≤ d →
  (∀ d' y, (d', y) ∈ s → d0 < d' ≤ d → isna y = true) →
  (d, x) ∈ ffill_from prev s.
Proof.
  intros Hx. revert prev. induction s as [|[d' v] s IH]; simpl;
    intros prev Hs Hnd Hin Hd Hle Hnan; [by apply elem_of_nil in Hin|].
  apply StronglySorted_cons in Hs as [Hall Hs]. rewrite Forall_forall in Hall.
  apply NoDup_cons in Hnd as [Hd' Hnd].
  assert (∀ d2 v2, (d2, v2) ∈ s → d' < d2) as Hlt.
  { intros d2 v2 Hin2. pose proof (Hall _ Hin2) as Hle2. unfold date_le in Hle2.
    simpl in Hle2. assert (d' ≠ d2); [|lia].
    intros ->. apply Hd', list_elem_of_fmap. by exists (d2, v2). }
  apply elem_of_cons in Hin as [[= <- <-]|Hin].
  - rewrite Hx. apply elem_of_cons in Hd as [->|Hd]; [left|]. right.
    apply ffill_from_run; [done..|].
    intros d2 y Hin2 Hle2. apply (Hnan d2 y); [by right|].
    pose proof (Hlt _ _ Hin2). lia.
  - pose proof (Hlt _ _ Hin) as Hlt0.
    apply elem_of_cons in Hd as [->|Hd]; [lia|]. right.
    apply IH; [done..|]. intros d2 y Hin2. apply Hnan. by right.
Qed.

(** Before the first reported value, the two fills give that value. *)
Lemma bfill_ffill_first (s : series) d1 x d :
  isna x = false →
  StronglySorted date_le s → NoDup s.*1 →
  (d1, x) ∈ s → d ∈ s.*1 → d ≤ d1 →
  (∀ d' y, (d', y) ∈ s → d' < d1 → isna y = true) →
  (d, x) ∈ series_bfill (ffill_from NaN s).
Proof.
  intros Hx. revert d. induction s as [|[d' v] s IH]; simpl;
    intros d Hs Hnd Hin Hd Hle Hnan; [by apply elem_of_nil in Hin|].
  apply StronglySorted_cons in Hs as [Hall Hs]. rewrite Forall_forall in Hall.
  apply NoDup_cons in Hnd as [Hd' Hnd].
  assert (∀ d2 v2, (d2, v2) ∈ s → d' < d2) as Hlt.
  { intros d2 v2 Hin2. pose proof (Hall _ Hin2) as Hle2. unfold date_le in Hle2.
    simpl in Hle2. assert (d' ≠ d2); [|lia].
    intros ->. apply Hd', list_elem_of_fmap. by exists (d2, v2). }
  apply elem_of_cons in Hin as [[= <- <-]|Hin].
  - rewrite Hx. simpl. rewrite Hx.
    apply elem_of_cons in Hd as [->|Hd]; [left|].
    apply list_elem_of_fmap in Hd as ([d2 v2] & -> & Hin2).
    pose proof (Hlt _ _ Hin2). simpl in *. lia.
  - pose proof (Hlt _ _ Hin) as Hlt1.
    rewrite (Hnan d' v) by (left || done). simpl.
    assert (∀ d, d ∈ s.*1 → d ≤ d1 → (d, x) ∈ series_bfill (ffill_from NaN s)) as IH'.
    { intros d2 Hd2 Hle2. apply IH; [done..|]. intros d3 y Hin3. apply Hnan. by right. }
    apply elem_of_cons in Hd as [->|Hd]; [|right; by apply IH'].
    assert (NoDup (series_bfill (ffill_from NaN s)).*1) as Hnd'
      by (by rewrite series_bfill_dates, ffill_from_dates).
    assert ((series_bfill (ffill_from NaN s)).*1 = s.*1) as Hdates
      by (by rewrite series_bfill_dates, ffill_from_dates).
    destruct s as [|[dh vh] s']; [by apply elem_of_nil in Hin|].
    assert (dh ≤ d1) as Hdh.
    { apply elem_of_cons in Hin as [[= -> ->]|Hin]; [lia|].
      apply StronglySorted_cons in Hs as [Hall' _]. rewrite Forall_forall in Hall'.
      apply (Hall' _ Hin). }
    assert ((dh, x) ∈ series_bfill (ffill_from NaN ((dh, vh) :: s'))) as Hhead
      by (apply IH'; [left | done]).
    destruct (series_bfill (ffill_from NaN ((dh, vh) :: s'))) as [|[dr yr] R];
      [done|].
    simpl in Hdates. injection Hdates as -> _.
    assert (x = yr) as <-; [|left].
    eapply NoDup_fst_eq; [exact Hnd' | exact Hhead | left].
Qed.

Lemma elem_of_map {B C} (g : B → C) (l : list B) (c : C) :
  c ∈ map g l ↔ ∃ b, c = g b ∧ b ∈ l.
Proof.
  rewrite list_elem_of_In, in_map_iff. split.
  - intros (b & <- & Hb). exists b. by rewrite list_elem_of_In.
  - intros (b & -> & Hb). exists b. by rewrite <- list_elem_of_In.
Qed.

(** The series that is filled: its dates and its rows. *)
Lemma fill_shares_rows (rows : list date) (s : series) :
  let l := sort_index
             (s ++ map (λ d, (d, NaN)) (List.filter (λ d, bool_decide (d ∉ s.*1)) rows)) in
  StronglySorted date_le l ∧
  (NoDup rows → NoDup s.*1 → NoDup l.*1) ∧
  (∀ d, d ∈ rows → d ∈ l.*1) ∧
  (∀ d y, (d, y) ∈ l ↔ (d, y) ∈ s ∨ (y = NaN ∧ d ∈ rows ∧ d ∉ s.*1)).
Proof.
  intros l. split; [apply sort_index_sorted|].
  assert (∀ d y, (d, y) ∈ l ↔ (d, y) ∈ s ∨ (y = NaN ∧ d ∈ rows ∧ d ∉ s.*1)) as Hrows.
  { intros d y. unfold l. rewrite sort_index_perm, elem_of_app, elem_of_map.
    apply or_iff_compat_l. split.
    - intros (d' & [= -> ->] & Hin). apply elem_of_List_filter in Hin as [Hin Hd].
      by apply bool_decide_eq_true in Hd.
    - intros (-> & Hin & Hd). exists d. split; [done|].
      apply elem_of_List_filter. split; [done|]. by apply bool_decide_eq_true. }
  split_and!; [| |done].
  - intros Hr Hs. unfold l. rewrite sort_index_perm, fmap_app.
    apply NoDup_app. split_and!; [done| |].
    + intros d Hd ([d' y] & -> & (d2 & [= -> ->] & Hin)%elem_of_map)%list_elem_of_fmap.
      apply elem_of_List_filter in Hin as [_ Hin]. by apply bool_decide_eq_true in Hin.
    + rewrite <- list_fmap_compose. simpl.
      assert (∀ r : list date, NoDup r → NoDup ((λ d : date, d) <$> r)) as Hid
        by (intros r; by rewrite list_fmap_id).
      apply Hid. clear -Hr. induction Hr as [|d r Hd Hr IH]; simpl; [constructor|].
      destruct (bool_decide _); [|done]. constructor; [|done].
      intros Hin%elem_of_List_filter. by destruct Hin.
  - intros d Hd. destruct (decide (d ∈ s.*1)) as [Hin|Hout].
    + apply list_elem_of_fmap in Hin as ([d' y] & -> & Hin).
      apply list_elem_of_fmap. exists (d', y). split; [done|]. apply Hrows. by left.
    + apply list_elem_of_fmap. exists (d, NaN). split; [done|]. apply Hrows. by right.
Qed.

Lemma fill_shares_forward (rows : list date) (s : series) d0 x d :
  NoDup rows → NoDup s.*1 →
  (d0, x) ∈ s → x ≠ NaN → d ∈ rows → d0 ≤ d →
  (∀ d' y, (d', y) ∈ s → ¬ (d0 < d' ≤ d)) →
  fill_shares rows s d = x.
Proof.
  intros Hr Hs Hin Hx Hd Hle Hnone.
  destruct (fill_shares_rows rows s) as (Hsorted & Hnd & Hdates & Hrows).
  unfold fill_shares.
  erewrite series_get_elem; [done | |].
  - rewrite series_bfill_dates. unfold series_ffill. rewrite ffill_from_dates. by apply Hnd.
  - apply series_bfill_elem; [|by destruct x].
    apply ffill_from_carries with (d0 := d0); [by destruct x | done | by apply Hnd | | | done |].
    + apply Hrows. by left.
    + by apply Hdates.
    + intros d' y [Hy|(-> & _)]%Hrows Hb; [by destruct (Hnone _ _ Hy)|done].
Qed.

Lemma fill_shares_backward (rows : list date) (s : series) d1 x d :
  NoDup rows → NoDup s.*1 →
  (d1, x) ∈ s → x ≠ NaN → d ∈ rows → d ≤ d1 →
  (∀ d' y, (d', y) ∈ s → d1 ≤ d') →
  fill_shares rows s d = x.
Proof.
  intros Hr Hs Hin Hx Hd Hle Hmin.
  destruct (fill_shares_rows rows s) as (Hsorted & Hnd & Hdates & Hrows).
  unfold fill_shares.
  erewrite series_get_elem; [done | |].
  - rewrite series_bfill_dates. unfold series_ffill. rewrite ffill_from_dates. by apply Hnd.
  - apply bfill_ffill_first with (d1 := d1); [by destruct x | done | by apply Hnd | | | done |].
    + apply Hrows. by left.
    + by apply Hdates.
    + intros d' y [Hy|(-> & _)]%Hrows Hb; [|done]. pose proof (Hmin _ _ Hy). lia.
Qed.

(** The entry of [self.shares_outstanding] of a ticker is the filled series
    of the values resolved for it. *)
Lemma init_shares src tickers stock_index hist m tk s :
  init src tickers stock_index hist = Ok m →
  tk ∈ dict_keys tickers →
  raw_shares src
    (delisted_tickers (yf_index src) (bfill_frame (yf_index src) (yf_download src))
       (dict_keys tickers)) hist tk = Ok s →
  dict_get (shares_outstanding m) tk = Some (fill_shares (yf_index src) s).
Proof.
  intros H Hk Hraw.
  apply init_Ok in H as (f & so & s0 & l & _ & Hres & _ & _ & _ & _ & _ & _ & Hso & _).
  rewrite Hso.
  eapply (for_each_establish
            (λ so, dict_get so tk = Some (fill_shares (yf_index src) s)) _ _ tk);
    [exact Hk | | | exact Hres].
  - intros so1 so2 Hstep. unfold resolve_shares in Hstep. rewrite Hraw in Hstep.
    simpl in Hstep. injection Hstep as <-. by rewrite dict_get_set, String.eqb_refl.
  - intros so1 b so2 Hso1 Hstep. unfold resolve_shares in Hstep. bind_inv Hstep.
    injection Hstep as <-. rewrite dict_get_set.
    destruct (String.eqb_spec b tk) as [->|_]; [|done].
    rewrite Hraw in Ha. by injection Ha as <-.
Qed.

End SharesFill.

(** X16: The shares outstanding of a ticker on a date of the panel are the
    value most recently reported on or before that date: a reported value
    is kept on its own date and rolled forward over the dates that follow,
    up to the next report.  The dates of the panel and the dates of the
    reports are assumed to be free of duplicates. *)
Theorem shares_rolled_forward
    (src : sources) (tickers : pydict window) (stock_index : option string)
    (hist : option (gmap string series)) (m : Metrics.t) (tk : string)
    (s : series) (d0 d : date) (x : fl) :
  Metrics.init src tickers stock_index hist = Ok m →
  tk ∈ dict_keys tickers →
  Metrics.raw_shares src
    (Metrics.delisted_tickers (yf_index src)
       (Metrics.bfill_frame (yf_index src) (yf_download src)) (dict_keys tickers))
    hist tk = Ok s →
  NoDup (yf_index src) → NoDup s.*1 →
  (d0, x) ∈ s → x ≠ NaN →
  d ∈ Metrics.index m → d0 ≤ d →
  (∀ d' y, (d', y) ∈ s → ¬ (d0 < d' ≤ d)) →
  Spec.shares m tk d = x.
Proof.
  intros H Hk Hraw Hr Hs Hin Hx Hd Hle Hnone.
  unfold Spec.shares. rewrite (init_shares _ _ _ _ _ _ _ H Hk Hraw).
  apply init_Ok in H as (_ & _ & _ & _ & _ & _ & _ & _ & _ & Hi & _).
  rewrite Hi in Hd. by apply fill_shares_forward with (d0 := d0).
Qed.

Lemma shares_rolled_forward_witness :
  ∃ m, Metrics.init Example.src Example.tickers None Example.hist = Ok m ∧
       Spec.shares m "A" 2 = fl_of_Z 630000 ∧ Spec.shares m "A" 10 = fl_of_Z 700000.
Proof.
  destruct (Metrics.init Example.src Example.tickers None Example.hist) as [m|e] eqn:H.
  - exists m. split; [reflexivity|].
    assert (∀ d, d ∈ Metrics.index m ↔ d ∈ Example.rows) as Hi.
    { pose proof (init_Ok _ _ _ _ _ H) as (f & so & s & lst & _ & _ & _ & _ & _ & Hi & _).
      by rewrite Hi. }
    split.
    + apply (shares_rolled_forward _ _ _ _ m "A"
               [(1, fl_of_Z 630000); (3, fl_of_Z 700000)] 1 2 _ H).
      * apply (bool_decide_unpack _). vm_compute. exact I.
      * vm_compute. reflexivity.
      * apply (bool_decide_unpack _). vm_compute. exact I.
      * apply (bool_decide_unpack _). vm_compute. exact I.
      * left.
      * discriminate.
      * apply Hi, (bool_decide_unpack _). vm_compute. exact I.
      * lia.
      * intros d' y Hin. apply elem_of_cons in Hin as [[= -> ->]|Hin]; [lia|].
        apply list_elem_of_singleton in Hin as [= -> ->]. lia.
    + apply (shares_rolled_forward _ _ _ _ m "A"
               [(1, fl_of_Z 630000); (3, fl_of_Z 700000)] 3 10 _ H).
      * apply (bool_decide_unpack _). vm_compute. exact I.
      * vm_compute. reflexivity.
      * apply (bool_decide_unpack _). vm_compute. exact I.
      * apply (bool_decide_unpack _). vm_compute. exact I.
      * right. left.
      * discriminate.
      * apply Hi, (bool_decide_unpack _). vm_compute. exact I.
      * lia.
      * intros d' y Hin. apply elem_of_cons in Hin as [[= -> ->]|Hin]; [lia|].
        apply list_elem_of_singleton in Hin as [= -> ->]. lia.
  - destruct (example_init_no_error _ _ H).
Defined.

(** X17: On the dates of the panel before the first report, the shares
    outstanding of a ticker are the earliest reported value, rolled
    backward.  The dates of the panel and the dates of the reports are
    assumed to be free of duplicates. *)
Theorem shares_rolled_backward
    (src : sources) (tickers : pydict window) (stock_index : option string)
    (hist : option (gmap string series)) (m : Metrics.t) (tk : string)
    (s : series) (d1 d : date) (x : fl) :
  Metrics.init src tickers stock_index hist = Ok m →
  tk ∈ dict_keys tickers →
  Metrics.raw_shares src
    (Metrics.delisted_tickers (yf_index src)
       (Metrics.bfill_frame (yf_index src) (yf_download src)) (dict_keys tickers))
    hist tk = Ok s →
  NoDup (yf_index src) → NoDup s.*1 →
  (d1, x) ∈ s → x ≠ NaN →
  (∀ d' y, (d', y) ∈ s → d1 ≤ d') →
  d ∈ Metrics.index m → d ≤ d1 →
  Spec.shares m tk d = x.
Proof.
  intros H Hk Hraw Hr Hs Hin Hx Hmin Hd Hle.
  unfold Spec.shares. rewrite (init_shares _ _ _ _ _ _ _ H Hk Hraw).
  apply init_Ok in H as (_ & _ & _ & _ & _ & _ & _ & _ & _ & Hi & _).
  rewrite Hi in Hd. by apply fill_shares_backward with (d1 := d1).
Qed.

Lemma shares_rolled_backward_witness :
  ∃ m, Metrics.init Example.src Example.tickers None Example.hist = Ok m ∧
       Spec.shares m "C" 1 = fl_of_Z 20.
Proof.
  destruct (Metrics.init Example.src Example.tickers None Example.hist) as [m|e] eqn:H.
  - exists m. split; [reflexivity|].
    apply (shares_rolled_backward _ _ _ _ m "C" [(2, fl_of_Z 20)] 2 1 _ H).
    + apply (bool_decide_unpack _). vm_compute. exact I.
    + vm_compute. reflexivity.
    + apply (bool_decide_unpack _). vm_compute. exact I.
    + apply (bool_decide_unpack _). vm_compute. exact I.
    + left.
    + discriminate.
    + intros d' y Hin. apply list_elem_of_singleton in Hin as [= -> ->]. lia.
    + pose proof (init_Ok _ _ _ _ _ H) as (f & so & s & lst & _ & _ & _ & _ & _ & Hi & _).
      rewrite Hi. apply (bool_decide_unpack _). vm_compute. exact I.
    + lia.
  - destruct (example_init_no_error _ _ H).
Defined.

(** ** Queries restricted to a list of tickers *)

Section Subset.
Import Metrics.

Lemma fadd_NaN_l (x : fl) : fadd NaN x = NaN.
Proof. done. Qed.

Lemma fadd_NaN_r (x : fl) : fadd x NaN = NaN.
Proof. by destruct x. Qed.

(** The loop of [get_daily_trading_value_ds], date by date. *)
Lemma trading_value_loop (m : t) (tks : list string) (ret ds : date → fl) (d : date) :
  for_each (λ daily_turnover tk,
      w ← dict_lookup (ticker_symbols m) tk;
      Ok (add_aligned daily_turnover w
            (λ d, fmul (data m Close tk d) (data m Volume tk d))))
    tks ret = Ok ds →
  ds d =
  fold_left fadd
    (map (λ tk, match dict_get (ticker_symbols m) tk with
                | Some w =>
                    if in_window w.1 w.2 d
                    then fmul (data m Close tk d) (data m Volume tk d) else NaN
                | None => NaN
                end) tks)
    (ret d).
Proof.
  revert ret; induction tks as [|tk tks IH]; intros ret H; simpl in *.
  - by injection H as <-.
  - bind_inv H. rewrite (IH _ H). unfold dict_lookup in Ha.
    destruct (dict_get (ticker_symbols m) tk) as [w|]; simpl in Ha; [|done].
    by injection Ha as <-.
Qed.

Lemma fold_fadd_NaN (l : list fl) : fold_left fadd l NaN = NaN.
Proof. induction l as [|x l IH]; simpl; [done | exact IH]. Qed.

Lemma fold_fadd_elem_NaN (l : list fl) (acc : fl) :
  NaN ∈ l → fold_left fadd l acc = NaN.
Proof.
  revert acc; induction l as [|x l IH]; intros acc Hin; simpl.
  - by apply elem_of_nil in Hin.
  - apply elem_of_cons in Hin as [<-|Hin]; [|by apply IH].
    by rewrite fadd_NaN_r, fold_fadd_NaN.
Qed.

Lemma lookup_loop_raises {S} (m : t) (tks : list string) (tk : string)
    (step : S → string → window → result S) (s : S) :
  tk ∈ tks → dict_get (ticker_symbols m) tk = None →
  is_raised (for_each (λ s tk, w ← dict_lookup (ticker_symbols m) tk; step s tk w) tks s).
Proof.
  intros Hin Hnone. apply for_each_raises with (a := tk); [done|].
  intros s'. unfold dict_lookup. unfold window in *. rewrite Hnone. by eexists.
Qed.

End Subset.

(** X18: The daily trading value of a list of tickers, on a date that lies
    inside the membership window of every listed ticker, is the sum of close
    price times volume over the list. *)
Theorem subset_trading_value_inside
    (m : Metrics.t) (tks : list string) (ds : date → fl) (d : date) :
  Metrics.get_daily_trading_value_ds m (Some tks) = Ok ds →
  d ∈ Metrics.index m →
  (∀ tk, tk ∈ tks → Spec.active m d tk = true) →
  ds d = Spec.fsum (map (λ tk, fmul (Spec.close m tk d) (Spec.volume m tk d)) tks).
Proof.
  intros H _ Hact. simpl in H. rewrite (trading_value_loop _ _ _ _ d H).
  unfold Spec.fsum. f_equal. apply map_ext_in. intros tk Hin%list_elem_of_In.
  specialize (Hact tk Hin). unfold Spec.active in Hact.
  destruct (dict_get (Metrics.ticker_symbols m) tk) as [w|]; [|done].
  by rewrite Hact.
Qed.

Lemma subset_trading_value_inside_witness :
  ∃ m ds, Metrics.init Example.src Example.tickers None Example.hist = Ok m ∧
          Metrics.get_daily_trading_value_ds m (Some ["A"; "C"]%string) = Ok ds ∧
          ds 4 = Spec.fsum (map (λ tk, fmul (Spec.close m tk 4) (Spec.volume m tk 4))
                              ["A"; "C"]%string).
Proof.
  destruct (Metrics.init Example.src Example.tickers None Example.hist) as [m|e] eqn:H.
  - pose proof (init_Ok _ _ _ _ _ H) as (f & so & s & lst & _ & _ & _ & _ & Ht & Hi & _).
    assert (∃ ds, Metrics.get_daily_trading_value_ds m (Some ["A"; "C"]%string) = Ok ds)
      as [ds Hds].
    { simpl. rewrite Ht. simpl. by eexists. }
    exists m, ds. split; [reflexivity|]. split; [exact Hds|].
    apply (subset_trading_value_inside m _ ds 4 Hds).
    + rewrite Hi. apply (bool_decide_unpack _). vm_compute. exact I.
    + intros tk Hin. unfold Spec.active. rewrite Ht.
      apply elem_of_cons in Hin as [->|Hin]; [reflexivity|].
      apply list_elem_of_singleton in Hin as ->. reflexivity.
  - destruct (example_init_no_error _ _ H).
Defined.

(** X19: The daily trading value of a list of tickers is missing (NaN), not a
    partial sum, on every date that lies outside the membership window of at
    least one listed ticker. *)
Theorem subset_trading_value_outside
    (m : Metrics.t) (tks : list string) (ds : date → fl) (tk : string) (d : date) :
  Metrics.get_daily_trading_value_ds m (Some tks) = Ok ds →
  d ∈ Metrics.index m →
  tk ∈ tks →
  Spec.active m d tk = false →
  ds d = NaN.
Proof.
  intros H _ Hin Hact. simpl in H. rewrite (trading_value_loop _ _ _ _ d H).
  apply fold_fadd_elem_NaN, elem_of_map. exists tk. split; [|done].
  unfold Spec.active in Hact.
  destruct (dict_get (Metrics.ticker_symbols m) tk) as [w|]; [|done].
  by rewrite Hact.
Qed.

Lemma subset_trading_value_outside_witness :
  ∃ m ds, Metrics.init Example.src Example.tickers None Example.hist = Ok m ∧
          Metrics.get_daily_trading_value_ds m (Some ["A"; "C"]%string) = Ok ds ∧
          ds 2 = NaN.
Proof.
  destruct (Metrics.init Example.src Example.tickers None Example.hist) as [m|e] eqn:H.
  - pose proof (init_Ok _ _ _ _ _ H) as (f & so & s & lst & _ & _ & _ & _ & Ht & Hi & _).
    assert (∃ ds, Metrics.get_daily_trading_value_ds m (Some ["A"; "C"]%string) = Ok ds)
      as [ds Hds].
    { simpl. rewrite Ht. simpl. by eexists. }
    exists m, ds. split; [reflexivity|]. split; [exact Hds|].
    apply (subset_trading_value_outside m _ ds "C" 2 Hds).
    + rewrite Hi. apply (bool_decide_unpack _). vm_compute. exact I.
    + right. left.
    + unfold Spec.active. rewrite Ht. reflexivity.
  - destruct (example_init_no_error _ _ H).
Defined.

(** X20: A query for a list of tickers that names a ticker which is no key of
    the membership map raises (a [KeyError]): the daily trading value, its
    resampled and annual forms and the two turnover ratios all fail. *)
Theorem subset_unknown_ticker_raises
    (m : Metrics.t) (freq : Metrics.frequency) (tks : list string) (tk : string) :
  tk ∈ tks →
  dict_get (Metrics.ticker_symbols m) tk = None →
  is_raised (Metrics.get_daily_trading_value_ds m (Some tks)) ∧
  is_raised (Metrics.get_daily_trading_value m freq (Some tks)) ∧
  is_raised (Metrics.get_annual_trading_value m freq (Some tks)) ∧
  is_raised (Metrics.get_daily_turnover m freq (Some tks)) ∧
  is_raised (Metrics.get_annual_turnover m freq (Some tks)).
Proof.
  intros Hin Hnone.
  assert (is_raised (Metrics.get_daily_trading_value_ds m (Some tks))) as Hds.
  { simpl.
    apply (lookup_loop_raises m tks tk
             (λ daily_turnover tk w,
                Ok (Metrics.add_aligned daily_turnover w
                      (λ d, fmul (Metrics.data m Close tk d) (Metrics.data m Volume tk d))))
             _ Hin Hnone). }
  assert (is_raised (Metrics.get_daily_trading_value m freq (Some tks))) as Hdv
    by (by apply bind_Err_l).
  assert (is_raised (Metrics.get_daily_turnover m freq (Some tks))) as Hdt
    by (by apply bind_Err_l).
  split_and!; [done | done | by apply bind_Err_l | done | by apply bind_Err_l].
Qed.

Lemma subset_unknown_ticker_raises_witness :
  ∃ m, Metrics.init Example.src Example.tickers None Example.hist = Ok m ∧
       is_raised (Metrics.get_daily_turnover m (λ d, d / 7) (Some ["A"; "Q"]%string)).
Proof.
  destruct (Metrics.init Example.src Example.tickers None Example.hist) as [m|e] eqn:H.
  - pose proof (init_Ok _ _ _ _ _ H) as (f & so & s & lst & _ & _ & _ & _ & Ht & _).
    exists m. split; [reflexivity|].
    apply (subset_unknown_ticker_raises m (λ d, d / 7) ["A"; "Q"]%string "Q").
    + right. left.
    + rewrite Ht. reflexivity.
  - destruct (example_init_no_error _ _ H).
Defined.


